(** * code-push management client: [AccountManager]

    A shallow embedding of [sdk/script/management/account-manager.ts] and of
    the command-executor behaviour pinned down by the CLI test-suite that
    ships with it.

    Every method of [AccountManager] builds one superagent request and
    registers a completion callback [(err, res) => ...] that settles a Q
    promise.  A method is embedded as two functions: [issue], the synchronous
    part that runs inside the promise resolver, and [complete], the callback.
    The callback is written in a small state-and-exception monad whose state
    holds the manager object and the log of [resolve]/[reject] calls. *)

From Stdlib Require Import ZArith String Ascii List Lia.
From stdpp Require Import base option list gmap strings pretty.

Set Warnings "-register-all".

Open Scope string_scope.
Open Scope Z_scope.

(** ** JavaScript values *)

(** The values that flow through the client: results of [JSON.parse], the
    records handed to [resolve] and the error objects handed to [reject].
    An object keeps its properties in insertion order.  [JNum n] is the
    double nearest to the integer [n]; the client itself only makes numbers
    out of status codes. *)
Inductive JSValue : Type :=
| JUndefined
| JNull
| JBool (b : bool)
| JNum (n : Z)
| JStr (s : string)
| JArr (items : list JSValue)
| JObj (props : list (string * JSValue)).

(** [if (v)]: the ToBoolean conversion. *)
Definition truthy (v : JSValue) : bool :=
  match v with
  | JUndefined | JNull => false
  | JBool b => b
  | JNum n => negb (n =? 0)
  | JStr s => negb (String.eqb s "")
  | JArr _ | JObj _ => true
  end.

Fixpoint assoc_get (k : string) (props : list (string * JSValue)) : JSValue :=
  match props with
  | [] => JUndefined
  | (k', v) :: rest => if String.eqb k k' then v else assoc_get k rest
  end.

Fixpoint assoc_set (k : string) (v : JSValue) (props : list (string * JSValue))
  : list (string * JSValue) :=
  match props with
  | [] => [(k, v)]
  | (k', v') :: rest =>
      if String.eqb k k' then (k, v) :: rest else (k', v') :: assoc_set k v rest
  end.

(** [v.k] on a value that has properties (any but [undefined] and [null]),
    for a property name [k] that no prototype defines: an own property of an
    object, [undefined] on a primitive.  This is the read behind a
    truthiness test ([if (body)], [!loginInfo ||]) or on an object literal;
    a read that can meet [undefined] or [null] goes through [member]
    below. *)
Definition get_prop (v : JSValue) (k : string) : JSValue :=
  match v with
  | JObj props => assoc_get k props
  | _ => JUndefined
  end.

(** [o.k = v] on an object: overwrite in place, or append a new property. *)
Definition set_prop (o : JSValue) (k : string) (v : JSValue) : JSValue :=
  match o with
  | JObj props => JObj (assoc_set k v props)
  | _ => o
  end.

(** An optional string parameter: [undefined] when omitted. *)
Definition optional (o : option string) : JSValue :=
  match o with
  | Some s => JStr s
  | None => JUndefined
  end.

(** ** String primitives used on the [Location] header *)

Fixpoint lastIndexOf_from (c : ascii) (s : string) (i last : Z) : Z :=
  match s with
  | EmptyString => last
  | String a rest =>
      lastIndexOf_from c rest (i + 1) (if Ascii.eqb a c then i else last)
  end.

(** [s.lastIndexOf(c)] for a one-character search string: [-1] if absent. *)
Definition lastIndexOf (c : ascii) (s : string) : Z :=
  lastIndexOf_from c s 0 (-1).

Fixpoint drop_chars (n : nat) (s : string) : string :=
  match n, s with
  | O, _ => s
  | S _, EmptyString => EmptyString
  | S n', String _ rest => drop_chars n' rest
  end.

(** [s.substr(start)]: a negative [start] counts from the end. *)
Definition substr (s : string) (start : Z) : string :=
  if start <? 0
  then drop_chars (Z.to_nat (Z.max 0 (Z.of_nat (String.length s) + start))) s
  else drop_chars (Z.to_nat start) s.

Fixpoint contains_char (c : ascii) (s : string) : bool :=
  match s with
  | EmptyString => false
  | String a rest => Ascii.eqb a c || contains_char c rest
  end.

(** ** superagent: responses, errors, agents, requests *)

Record Response := {
  ok : bool;                     (* the 2xx flag *)
  status : Z;
  text : string;
  header : gmap string string
}.

(** The [err] argument of a completion callback. *)
Record TransportError := {
  err_status : option Z;         (* [err.status], often undefined *)
  message : string
}.

(** A cookie-bearing agent, [request.agent()].  Its jar is kept as the
    [set-cookie] values handed to it so far, oldest first: what the jar
    holds, and what it picks for a URL, is a function of these. *)
Record Agent := { jar : list string }.

Definition request_agent : Agent := {| jar := [] |}.

(** [agent.saveCookies(res)] stores the response's [set-cookie] header. *)
Definition saveCookies (res : Response) (a : Agent) : Agent :=
  match header res !! "set-cookie" with
  | Some c => {| jar := jar a ++ [c] |}
  | None => a
  end.

(** Who builds the request: the superagent module itself or an agent. *)
Inductive Requester :=
| Superagent
| ViaAgent (a : Agent).

(** How a request is authenticated.  [CookiesFrom saved] is
    [requester.attachCookies(request)] on an agent whose jar was handed
    [saved]: the request gets the cookies that jar selects for its URL. *)
Inductive Credentials :=
| NoCredentials
| CookiesFrom (saved : list string)
| WithCredentials.                  (* [request.withCredentials()] *)

Inductive Method := GET | POST | PUT | DELETE.

(** What [fileOrPath] of [addPackage] can be. *)
Inductive FileOrPath :=
| Path (p : string)
| FileHandle (name : string).

Inductive Payload :=
| NoPayload
| Json (v : JSValue)                               (* [send(JSON.stringify(v))] *)
| LoginForm (identity : JSValue) (token : JSValue) (* [type("form").send.send] *)
| Multipart (package : FileOrPath) (packageInfo : JSValue).

Record Request := {
  method : Method;
  url : string;
  credentials : Credentials;
  payload : Payload
}.

(** ** Promises *)

(** A call of a promise's [resolve] or [reject]. *)
Inductive Settlement :=
| Resolved (v : JSValue)
| Rejected (e : JSValue).

(** A library call that either returns or throws. *)
Inductive Try (A : Type) :=
| Returns (a : A)
| Throws (exn : JSValue).
Arguments Returns {A} a.
Arguments Throws {A} exn.

(** The TypeError of a property read on [undefined] or [null]; its message
    is the engine's and is not kept. *)
Definition TypeError : JSValue := JObj [("name", JStr "TypeError")].

(** [v.k] on any value. *)
Definition member (v : JSValue) (k : string) : Try JSValue :=
  match v with
  | JUndefined | JNull => Throws TypeError
  | _ => Returns (get_prop v k)
  end.

(** ** The manager object *)

Record AccountManager := {
  _authedAgent : option Agent;   (* [None]: undefined or null, both falsy *)
  _saveAuthedAgent : bool;
  account : JSValue;
  serverUrl : string
}.

(** [new AccountManager(serverUrl)]; [window_defined] tells a browser from
    node. *)
Definition constructor (window_defined : bool) (url : string) : AccountManager :=
  {| _authedAgent := None;
     _saveAuthedAgent := negb window_defined;
     account := JUndefined;
     serverUrl := url |}.

Definition with_agent (am : AccountManager) (a : option Agent) : AccountManager :=
  {| _authedAgent := a;
     _saveAuthedAgent := _saveAuthedAgent am;
     account := account am;
     serverUrl := serverUrl am |}.

(** An agent saves the cookies of every response to a request it built
    (its listener on the request's response event), before the callback of
    the request runs.  When the stored agent built the request, it is the
    stored agent that changes. *)
Definition response_event (am : AccountManager) (builder : Requester)
  (res : option Response) : AccountManager :=
  match builder, res with
  | ViaAgent a, Some r => with_agent am (Some (saveCookies r a))
  | _, _ => am
  end.

(** What superagent hands to the callback of [end], from its version 1.0
    on, which the guards [err.status !== 401] of the client presuppose: a
    response with a 2xx status and no error; a response with any other
    status together with an error that carries this status; or an error
    without status and no response, when no response came. *)
Definition delivered (err : option TransportError) (res : option Response)
  : bool :=
  match err, res with
  | None, Some r => ok r && (status r / 100 =? 2)
  | Some e, Some r =>
      negb (ok r) && negb (status r / 100 =? 2)
      && match err_status e with
         | Some s => s =? status r
         | None => false
         end
  | Some e, None =>
      match err_status e with
      | Some _ => false
      | None => true
      end
  | None, None => false
  end.

(** [interface CodePushError { message?; statusCode? }] *)
Definition error_message (msg : string) : JSValue :=
  JObj [("message", JStr msg)].

Definition error_message_status (msg : string) (code : Z) : JSValue :=
  JObj [("message", JStr msg); ("statusCode", JNum code)].

(** ** The callback monad *)

Record World := {
  this : AccountManager;
  settled : list Settlement      (* calls of resolve/reject, oldest first *)
}.

Inductive Result (A : Type) :=
| Done (a : A) (w : World)
| Threw (w : World).             (* a TypeError escaped the callback *)
Arguments Done {A} a w.
Arguments Threw {A} w.

Definition Cb (A : Type) : Type := World -> Result A.

Definition ret {A} (a : A) : Cb A := fun w => Done a w.

Definition bind {A B} (c : Cb A) (k : A -> Cb B) : Cb B :=
  fun w => match c w with
           | Done a w' => k a w'
           | Threw w' => Threw w'
           end.

Notation "'do' x <- c ; k" := (bind c (fun x => k))
  (at level 10, x name, c at level 100, k at level 200).
Notation "'run' c ; k" := (bind c (fun _ => k))
  (at level 10, c at level 100, k at level 200).

Definition resolve (v : JSValue) : Cb unit :=
  fun w => Done tt {| this := this w; settled := settled w ++ [Resolved v] |}.

Definition reject (e : JSValue) : Cb unit :=
  fun w => Done tt {| this := this w; settled := settled w ++ [Rejected e] |}.

(** Reading a property of [res]: a TypeError when [res] is undefined. *)
Definition defined {A} (o : option A) : Cb A :=
  fun w => match o with
           | Some a => Done a w
           | None => Threw w
           end.

Definition get_this : Cb AccountManager := fun w => Done (this w) w.

Definition set_authedAgent (a : option Agent) : Cb unit :=
  fun w => Done tt
    {| this := {| _authedAgent := a;
                  _saveAuthedAgent := _saveAuthedAgent (this w);
                  account := account (this w);
                  serverUrl := serverUrl (this w) |};
       settled := settled w |}.

Definition set_account (v : JSValue) : Cb unit :=
  fun w => Done tt
    {| this := {| _authedAgent := _authedAgent (this w);
                  _saveAuthedAgent := _saveAuthedAgent (this w);
                  account := v;
                  serverUrl := serverUrl (this w) |};
       settled := settled w |}.

(** The world a result leaves behind, thrown or not. *)
Definition world_of {A} (r : Result A) : World :=
  match r with
  | Done _ w => w
  | Threw w => w
  end.

Definition threw {A} (r : Result A) : bool :=
  match r with
  | Done _ _ => false
  | Threw _ => true
  end.

(** ** A runtime to execute the client on

    [JSON.parse] and base-64's [decode] are library code.  The client below
    is parametric in both; this module provides executable instances, used
    to run the client on concrete inputs.  [Runtime.JSON_parse] accepts the
    fragment of JSON without [\u] escapes and without numbers that are not
    integers, and returns on it what [JSON.parse] returns. *)
Module Runtime.

Definition is_ws (c : ascii) : bool :=
  match c with
  | " "%char | "009"%char | "010"%char | "013"%char => true
  | _ => false
  end.

Fixpoint skip_ws (s : string) : string :=
  match s with
  | String c rest => if is_ws c then skip_ws rest else s
  | EmptyString => s
  end.

Fixpoint strip_prefix (p s : string) : option string :=
  match p, s with
  | EmptyString, _ => Some s
  | String a p', String b s' => if Ascii.eqb a b then strip_prefix p' s' else None
  | String _ _, EmptyString => None
  end.

Definition digit_of (c : ascii) : option Z :=
  let n := Z.of_nat (nat_of_ascii c) in
  if (48 <=? n) && (n <=? 57) then Some (n - 48) else None.

(** A run of digits: its value on top of [acc], its length, the rest. *)
Fixpoint parse_digits (s : string) (acc : Z) (count : nat)
  : Z * nat * string :=
  match s with
  | String c rest =>
      match digit_of c with
      | Some d => parse_digits rest (acc * 10 + d) (S count)
      | None => (acc, count, s)
      end
  | EmptyString => (acc, count, s)
  end.

(** The fraction of a number, if any: the mantissa extended by its digits
    and their count.  A point needs a digit after it. *)
Definition parse_fraction (mantissa : Z) (s : string)
  : option (Z * nat * string) :=
  match s with
  | String "."%char rest =>
      match parse_digits rest mantissa O with
      | (_, O, _) => None
      | found => Some found
      end
  | _ => Some (mantissa, O, s)
  end.

(** The exponent of a number, if any. *)
Definition parse_exponent (s : string) : option (Z * string) :=
  let digits negative rest :=
    match parse_digits rest 0 O with
    | (_, O, _) => None
    | (e, _, rest') => Some (if negative : bool then - e else e, rest')
    end in
  match s with
  | String "e"%char rest | String "E"%char rest =>
      match rest with
      | String "+"%char rest' => digits false rest'
      | String "-"%char rest' => digits true rest'
      | _ => digits false rest
      end
  | _ => Some (0, s)
  end.

(** An unsigned number: [0] or digits without leading zero, then an
    optional fraction and exponent.  Only a number whose value is an
    integer stays in the fragment. *)
Definition parse_int (s : string) : option (Z * string) :=
  match s with
  | String c rest =>
      match digit_of c with
      | Some d =>
          let '(n, _, rest1) :=
            if d =? 0 then (0, O, rest) else parse_digits rest d O in
          match parse_fraction n rest1 with
          | Some (mantissa, decimals, rest2) =>
              match parse_exponent rest2 with
              | Some (e, rest3) =>
                  let shift := e - Z.of_nat decimals in
                  if 0 <=? shift then Some (mantissa * 10 ^ shift, rest3)
                  else if mantissa mod 10 ^ (- shift) =? 0
                       then Some (mantissa / 10 ^ (- shift), rest3)
                       else None
              | None => None
              end
          | None => None
          end
      | None => None
      end
  | EmptyString => None
  end.

Definition unescape (c : ascii) : option ascii :=
  match c with
  | "034"%char => Some "034"%char
  | "\"%char => Some "\"%char
  | "/"%char => Some "/"%char
  | "b"%char => Some "008"%char
  | "f"%char => Some "012"%char
  | "n"%char => Some "010"%char
  | "r"%char => Some "013"%char
  | "t"%char => Some "009"%char
  | _ => None
  end.

(** The characters of a string literal after its opening quote. *)
Fixpoint parse_chars (s : string) : option (string * string) :=
  match s with
  | EmptyString => None
  | String "034"%char rest => Some (EmptyString, rest)
  | String "\"%char (String e rest) =>
      match unescape e, parse_chars rest with
      | Some c, Some (str, rest') => Some (String c str, rest')
      | _, _ => None
      end
  | String c rest =>
      if (Z.of_nat (nat_of_ascii c) <? 32) then None
      else match parse_chars rest with
           | Some (str, rest') => Some (String c str, rest')
           | None => None
           end
  end.

Fixpoint parse_value (fuel : nat) (s : string) : option (JSValue * string) :=
  match fuel with
  | O => None
  | S fuel' =>
      match skip_ws s with
      | String "034"%char rest =>
          match parse_chars rest with
          | Some (str, rest') => Some (JStr str, rest')
          | None => None
          end
      | String "["%char rest =>
          match skip_ws rest with
          | String "]"%char rest' => Some (JArr [], rest')
          | _ => parse_elements fuel' rest []
          end
      | String "{"%char rest =>
          match skip_ws rest with
          | String "}"%char rest' => Some (JObj [], rest')
          | _ => parse_members fuel' rest []
          end
      | String "-"%char rest =>
          match parse_int rest with
          | Some (n, rest') => Some (JNum (- n), rest')
          | None => None
          end
      | s' =>
          match strip_prefix "null" s', strip_prefix "true" s',
                strip_prefix "false" s' with
          | Some rest, _, _ => Some (JNull, rest)
          | _, Some rest, _ => Some (JBool true, rest)
          | _, _, Some rest => Some (JBool false, rest)
          | _, _, _ =>
              match parse_int s' with
              | Some (n, rest) => Some (JNum n, rest)
              | None => None
              end
          end
      end
  end
with parse_elements (fuel : nat) (s : string) (acc : list JSValue)
  : option (JSValue * string) :=
  match fuel with
  | O => None
  | S fuel' =>
      match parse_value fuel' s with
      | Some (v, rest) =>
          match skip_ws rest with
          | String ","%char rest' => parse_elements fuel' rest' (acc ++ [v])
          | String "]"%char rest' => Some (JArr (acc ++ [v]), rest')
          | _ => None
          end
      | None => None
      end
  end
with parse_members (fuel : nat) (s : string) (acc : list (string * JSValue))
  : option (JSValue * string) :=
  match fuel with
  | O => None
  | S fuel' =>
      match skip_ws s with
      | String "034"%char rest =>
          match parse_chars rest with
          | Some (key, rest1) =>
              match skip_ws rest1 with
              | String ":"%char rest2 =>
                  match parse_value fuel' rest2 with
                  | Some (v, rest3) =>
                      match skip_ws rest3 with
                      | String ","%char rest4 =>
                          parse_members fuel' rest4 (assoc_set key v acc)
                      | String "}"%char rest4 =>
                          Some (JObj (assoc_set key v acc), rest4)
                      | _ => None
                      end
                  | None => None
                  end
              | _ => None
              end
          | None => None
          end
      | _ => None
      end
  end.

(** [JSON.parse(text)]; [None] stands for the SyntaxError. *)
Definition JSON_parse (text : string) : option JSValue :=
  match parse_value (2 * String.length text + 2) text with
  | Some (v, rest) =>
      match skip_ws rest with
      | EmptyString => Some v
      | _ => None
      end
  | None => None
  end.

(** Position of a character in the base-64 alphabet. *)
Definition sextet (c : ascii) : option Z :=
  let n := Z.of_nat (nat_of_ascii c) in
  if (65 <=? n) && (n <=? 90) then Some (n - 65)
  else if (97 <=? n) && (n <=? 122) then Some (n - 71)
  else if (48 <=? n) && (n <=? 57) then Some (n + 4)
  else if n =? 43 then Some 62
  else if n =? 47 then Some 63
  else None.

Definition is_space (c : ascii) : bool :=
  match c with
  | " "%char | "009"%char | "010"%char | "012"%char | "013"%char => true
  | _ => false
  end.

Fixpoint remove_spaces (s : string) : string :=
  match s with
  | String c rest =>
      if is_space c then remove_spaces rest else String c (remove_spaces rest)
  | EmptyString => s
  end.

Fixpoint sextets (s : string) : option (list Z) :=
  match s with
  | EmptyString => Some []
  | String c rest =>
      match sextet c, sextets rest with
      | Some n, Some ns => Some (n :: ns)
      | _, _ => None
      end
  end.

(** Removes the [=] or [==] that ends an input. *)
Fixpoint strip_padding (s : string) : string :=
  match s with
  | String "="%char EmptyString => EmptyString
  | String "="%char (String "="%char EmptyString) => EmptyString
  | String c rest => String c (strip_padding rest)
  | EmptyString => s
  end.

(** The decoding loop: [bitCounter] counts the characters consumed and
    [bitStorage] holds the bits of the current group of four. *)
Fixpoint decode_loop (input : list Z) (bitCounter bitStorage : Z) : string :=
  match input with
  | [] => EmptyString
  | buffer :: rest =>
      let bitStorage' :=
        if bitCounter mod 4 =? 0 then buffer else bitStorage * 64 + buffer in
      let bitCounter' := bitCounter + 1 in
      if bitCounter mod 4 =? 0
      then decode_loop rest bitCounter' bitStorage'
      else
        String
          (ascii_of_nat (Z.to_nat
             (Z.land 255 (Z.shiftr bitStorage' (Z.land (-2 * bitCounter') 6)))))
          (decode_loop rest bitCounter' bitStorage')
  end.

Definition InvalidCharacterError : JSValue :=
  JObj [("message",
         JStr "Invalid character: the string to be decoded is not correctly encoded.");
        ("name", JStr "InvalidCharacterError")].

(** base-64's [decode]. *)
Definition base64_decode (input : string) : Try string :=
  let input1 := remove_spaces input in
  let input2 :=
    if Z.of_nat (String.length input1) mod 4 =? 0
    then strip_padding input1 else input1 in
  if Z.of_nat (String.length input2) mod 4 =? 1
  then Throws InvalidCharacterError
  else match sextets input2 with
       | Some ns => Returns (decode_loop ns 0 0)
       | None => Throws InvalidCharacterError
       end.

End Runtime.

(** ** The management client *)

(** Rounding of a non-negative integer to the nearest double, ties to
    even; [None] stands for Infinity. *)
Definition nearest_double (n : Z) : option Z :=
  if n <? 2 ^ 53 then Some n
  else
    let sh := Z.log2 n - 52 in
    let q := Z.shiftr n sh in
    let r := n - Z.shiftl q sh in
    let half := Z.shiftl 1 (sh - 1) in
    let q' := if (half <? r) || ((r =? half) && Z.odd q) then q + 1 else q in
    let x := Z.shiftl q' sh in
    if 2 ^ 1024 <=? x then None else Some x.

(** Whether the decimal [v] reads back as the double [x], [x >= 2^53]. *)
Definition reads_back (x v : Z) : bool :=
  let sh := Z.log2 x - 52 in
  let q := Z.shiftr x sh in
  let up := Z.shiftl 1 sh in
  let low := if q =? 2 ^ 52 then Z.shiftl 1 (sh - 1) else up in
  let d := 2 * v - 2 * x in
  if Z.even q then (- low <=? d) && (d <=? up)
  else (- low <? d) && (d <? up).

(** The decimal with the fewest significant digits that reads back as [x]:
    the multiple of the largest power of ten that does, the closest one if
    two do. *)
Fixpoint shortest_decimal (x : Z) (p : nat) : Z :=
  let unit := 10 ^ Z.of_nat p in
  let v1 := x / unit * unit in
  let v2 := v1 + unit in
  match reads_back x v1, reads_back x v2, p with
  | true, true, _ =>
      if x - v1 <? v2 - x then v1
      else if v2 - x <? x - v1 then v2
      else if Z.even (v1 / unit) then v1 else v2
  | true, false, _ => v1
  | false, true, _ => v2
  | false, false, S p' => shortest_decimal x p'
  | false, false, O => x
  end.

Fixpoint strip_zeros (fuel : nat) (v : Z) : Z :=
  match fuel with
  | S fuel' =>
      if (v mod 10 =? 0) && negb (v =? 0) then strip_zeros fuel' (v / 10) else v
  | O => v
  end.

(** [Number.prototype.toString] on the double nearest to a non-negative
    integer: plain digits below [1e21], exponent notation from there on. *)
Definition print_double (n : Z) : string :=
  match nearest_double n with
  | None => "Infinity"
  | Some x =>
      if x <? 2 ^ 53 then pretty x
      else
        let v := shortest_decimal x (String.length (pretty x)) in
        if v <? 10 ^ 21 then pretty v
        else
          let exponent := Z.of_nat (String.length (pretty v)) - 1 in
          match pretty (strip_zeros (String.length (pretty v)) v) with
          | String d EmptyString => String d ("e+" +:+ pretty exponent)
          | String d rest => String d ("." +:+ rest +:+ "e+" +:+ pretty exponent)
          | EmptyString => EmptyString
          end
  end.

Definition Number_toString (n : Z) : string :=
  if n <? 0 then "-" +:+ print_double (- n) else print_double n.

(** [String(v)], as string concatenation applies it. *)
Fixpoint ToString (v : JSValue) : string :=
  match v with
  | JUndefined => "undefined"
  | JNull => "null"
  | JBool true => "true"
  | JBool false => "false"
  | JNum n => Number_toString n
  | JStr s => s
  | JArr items =>
      (fix join (l : list JSValue) : string :=
         let elem x := match x with
                       | JUndefined | JNull => ""
                       | _ => ToString x
                       end in
         match l with
         | [] => ""
         | [x] => elem x
         | x :: rest => elem x +:+ "," +:+ join rest
         end) items
  | JObj _ => "[object Object]"
  end.

(** An argument of type [T | string]:
    [typeof x === "string" ? x : x.id]. *)
Definition id_of (v : JSValue) : Try string :=
  match v with
  | JStr s => Returns s
  | _ =>
      match member v "id" with
      | Returns i => Returns (ToString i)
      | Throws exn => Throws exn
      end
  end.

Inductive Operation :=
| LoginWithAccessToken (accessToken : string)
| Logout
| IsAuthenticated
| AddAccessKey (uuid : string) (description : option string)
| GetAccessKey (accessKeyId : string)
| GetAccessKeys
| RemoveAccessKey (accessKeyId : string)
| GetAccountInfo
| UpdateAccountInfo (accountInfoToChange : JSValue)
| GetApps
| GetApp (appId : string)
| AddApp (appName : string) (description : option string)
| RemoveApp (app : JSValue)
| UpdateApp (infoToChange : JSValue)
| AddDeployment (appId name : string) (description : option string)
| GetDeployments (appId : string)
| GetDeployment (appId deploymentId : string)
| UpdateDeployment (appId : string) (infoToChange : JSValue)
| RemoveDeployment (appId : string) (deployment : JSValue)
| AddDeploymentKey (appId deploymentId name : string) (description : option string)
| GetDeploymentKeys (appId deploymentId : string)
| GetDeploymentKey (appId deploymentId deploymentKeyId : string)
| UpdateDeploymentKey (appId deploymentId deploymentKeyId : string)
    (infoToChange : JSValue)
| DeleteDeploymentKey (appId deploymentId : string) (deploymentKey : JSValue)
| AddPackage (appId deploymentId : string) (fileOrPath : FileOrPath)
    (description label appVersion : string) (isMandatory : bool)
| GetPackage (appId deploymentId : string).

(** What the synchronous part of a method leaves behind: a request in
    flight, a promise settled without any request, or an exception thrown
    before any promise was made. *)
Inductive Start :=
| Sent (req : Request)
| Settles (s : Settlement)
| Raises (exn : JSValue).

Section Client.

Variable JSON_parse : string -> option JSValue.
Variable base64_decode : string -> Try string.

(** try-json: the parsed value, [undefined] when parsing throws. *)
Definition tryJSON (str : string) : JSValue :=
  match JSON_parse str with
  | Some v => v
  | None => JUndefined
  end.

Definition getLoginInfo (accessKey : string) : Try JSValue :=
  match base64_decode accessKey with
  | Returns decoded => Returns (tryJSON decoded)
  | Throws exn => Throws exn
  end.

Definition getErrorMessage (error : TransportError) (response : option Response)
  : string :=
  match response with
  | Some r => if negb (String.eqb (text r) "") then text r else message error
  | None => message error
  end.

Definition generatePackageInfo (description label appVersion : string)
  (isMandatory : bool) : JSValue :=
  JObj [("description", JStr description);
        ("label", JStr label);
        ("appVersion", JStr appVersion);
        ("isMandatory", JBool isMandatory)].

Definition generateDeploymentKey (name : string) (description : option string)
  (isPrimary : bool) (id : option string) : JSValue :=
  JObj [("id", optional id);
        ("name", JStr name);
        ("description", optional description);
        ("isPrimary", JBool (negb (negb isPrimary)))].

Definition attachCredentials (am : AccountManager) (requester : Requester)
  : Credentials :=
  if _saveAuthedAgent am then
    match requester with
    | ViaAgent a => CookiesFrom (jar a)
    | Superagent => NoCredentials    (* the module has no [attachCookies] *)
    end
  else WithCredentials.

(** [this._authedAgent ? this._authedAgent : request] *)
Definition requester_of (am : AccountManager) : Requester :=
  match _authedAgent am with
  | Some a => ViaAgent a
  | None => Superagent
  end.

Definition send (am : AccountManager) (m : Method) (path : string) (p : Payload)
  : Start :=
  Sent {| method := m;
          url := serverUrl am +:+ path;
          credentials := attachCredentials am (requester_of am);
          payload := p |}.

(** *** The resources the create methods build before the request *)

Definition new_accessKey (uuid : string) (description : option string) : JSValue :=
  JObj [("id", JNull); ("name", JStr uuid); ("description", optional description)].

Definition new_app (appName : string) (description : option string) : JSValue :=
  JObj [("name", JStr appName); ("description", optional description)].

Definition new_deployment (name : string) (description : option string) : JSValue :=
  JObj [("name", JStr name); ("description", optional description)].

(** *** The synchronous part of every method *)

Definition issue (am : AccountManager) (op : Operation) : Start :=
  match op with
  | LoginWithAccessToken accessToken =>
      match getLoginInfo accessToken with
      | Throws exn => Settles (Rejected exn)  (* Q rejects when the resolver throws *)
      | Returns loginInfo =>
          if negb (truthy loginInfo)
             || negb (truthy (get_prop loginInfo "providerName"))
             || negb (truthy (get_prop loginInfo "providerUniqueId"))
          then Settles (Rejected (error_message "Invalid access key."))
          else
            Sent {| method := POST;
                    url := serverUrl am +:+ "/auth/login/accessToken";
                    credentials := attachCredentials am Superagent;
                    payload :=
                      LoginForm
                        (JObj [("providerName", get_prop loginInfo "providerName");
                               ("providerUniqueId",
                                get_prop loginInfo "providerUniqueId")])
                        (get_prop loginInfo "accessKeyName") |}
      end
  | Logout =>
      Sent {| method := POST;
              url := serverUrl am +:+ "/auth/logout";
              credentials := attachCredentials am Superagent;
              payload := NoPayload |}
  | IsAuthenticated => send am GET "/authenticated" NoPayload
  | AddAccessKey uuid description =>
      send am POST "/accessKeys/" (Json (new_accessKey uuid description))
  | GetAccessKey accessKeyId => send am GET ("/accessKeys/" +:+ accessKeyId) NoPayload
  | GetAccessKeys => send am GET "/accessKeys" NoPayload
  | RemoveAccessKey accessKeyId =>
      send am DELETE ("/accessKeys/" +:+ accessKeyId) NoPayload
  | GetAccountInfo => send am GET "/account" NoPayload
  | UpdateAccountInfo accountInfoToChange =>
      send am PUT "/account" (Json accountInfoToChange)
  | GetApps => send am GET "/apps" NoPayload
  | GetApp appId => send am GET ("/apps/" +:+ appId) NoPayload
  | AddApp appName description =>
      send am POST "/apps/" (Json (new_app appName description))
  | RemoveApp app =>
      match id_of app with
      | Returns id => send am DELETE ("/apps/" +:+ id) NoPayload
      | Throws exn => Settles (Rejected exn)  (* thrown inside the resolver *)
      end
  | UpdateApp infoToChange =>
      match member infoToChange "id" with
      | Returns id =>
          send am PUT ("/apps/" +:+ ToString id) (Json infoToChange)
      | Throws exn => Settles (Rejected exn)
      end
  | AddDeployment appId name description =>
      send am POST ("/apps/" +:+ appId +:+ "/deployments/")
        (Json (new_deployment name description))
  | GetDeployments appId =>
      send am GET ("/apps/" +:+ appId +:+ "/deployments") NoPayload
  | GetDeployment appId deploymentId =>
      send am GET ("/apps/" +:+ appId +:+ "/deployments/" +:+ deploymentId) NoPayload
  | UpdateDeployment appId infoToChange =>
      match member infoToChange "id" with
      | Returns id =>
          send am PUT ("/apps/" +:+ appId +:+ "/deployments/" +:+ ToString id)
            (Json infoToChange)
      | Throws exn => Settles (Rejected exn)
      end
  | RemoveDeployment appId deployment =>
      match id_of deployment with
      | Returns id =>
          send am DELETE ("/apps/" +:+ appId +:+ "/deployments/" +:+ id)
            NoPayload
      | Throws exn => Settles (Rejected exn)
      end
  | AddDeploymentKey appId deploymentId name description =>
      send am POST ("/apps/" +:+ appId +:+ "/deployments/" +:+ deploymentId
                    +:+ "/deploymentKeys")
        (Json (generateDeploymentKey name description false None))
  | GetDeploymentKeys appId deploymentId =>
      send am GET ("/apps/" +:+ appId +:+ "/deployments/" +:+ deploymentId
                   +:+ "/deploymentKeys") NoPayload
  | GetDeploymentKey appId deploymentId deploymentKeyId =>
      send am GET ("/apps/" +:+ appId +:+ "/deployments/" +:+ deploymentId
                   +:+ "/deploymentKeys/" +:+ deploymentKeyId) NoPayload
  | UpdateDeploymentKey appId deploymentId deploymentKeyId infoToChange =>
      send am PUT ("/apps/" +:+ appId +:+ "/deployments/" +:+ deploymentId
                   +:+ "/deploymentKeys/" +:+ deploymentKeyId)
        (Json infoToChange)
  | DeleteDeploymentKey appId deploymentId deploymentKey =>
      match id_of deploymentKey with
      | Returns id =>
          send am DELETE ("/apps/" +:+ appId +:+ "/deployments/" +:+ deploymentId
                          +:+ "/deploymentKeys/" +:+ id) NoPayload
      | Throws exn => Raises exn  (* the id is read before the promise is made *)
      end
  | AddPackage appId deploymentId fileOrPath description label appVersion
      isMandatory =>
      match fileOrPath, _saveAuthedAgent am with
      | Path _, false =>
          (* the browser's [fs.createReadStream] throws inside the resolver *)
          Settles (Rejected (error_message
                     "Tried to call a node fs function from the browser."))
      | _, _ =>
          send am PUT ("/apps/" +:+ appId +:+ "/deployments/" +:+ deploymentId
                       +:+ "/package")
            (Multipart fileOrPath
               (generatePackageInfo description label appVersion isMandatory))
      end
  | GetPackage appId deploymentId =>
      send am GET ("/apps/" +:+ appId +:+ "/deployments/" +:+ deploymentId
                   +:+ "/package") NoPayload
  end.

(** *** The completion callbacks, method by method *)

Definition loginWithAccessToken_end (err : option TransportError)
  (res : option Response) : Cb unit :=
  match err with
  | Some e => reject (error_message (getErrorMessage e res))
  | None =>
      do am <- get_this;
      run (if _saveAuthedAgent am then
             run set_authedAgent (Some request_agent);
             do r <- defined res;
             set_authedAgent (Some (saveCookies r request_agent))
           else ret tt);
      do r <- defined res;
      if ok r then resolve JNull
      else
        let body := tryJSON (text r) in
        if truthy body then reject body
        else reject (error_message_status (text r) (status r))
  end.

(** [err && err.status !== 401] *)
Definition fatal (err : option TransportError) : option TransportError :=
  match err with
  | Some e =>
      match err_status e with
      | Some 401 => None
      | _ => Some e
      end
  | None => None
  end.

Definition logout_end (err : option TransportError) (res : option Response)
  : Cb unit :=
  match fatal err with
  | Some e => reject (error_message (getErrorMessage e res))
  | None =>
      run set_authedAgent None;
      do r <- defined res;
      if ok r then resolve JNull
      else
        let body := tryJSON (text r) in
        if truthy body then reject body
        else reject (error_message_status (text r) (status r))
  end.

(** [res ? res.status : err.status]; [err.status] of a null [err] throws. *)
Definition completion_status (err : option TransportError)
  (res : option Response) : Cb (option Z) :=
  match res with
  | Some r => ret (Some (status r))
  | None => do e <- defined err; ret (err_status e)
  end.

Definition isAuthenticated_end (err : option TransportError)
  (res : option Response) : Cb unit :=
  match fatal err with
  | Some e => reject (error_message (getErrorMessage e res))
  | None =>
      do status <- completion_status err res;
      let authenticated :=
        match status with
        | Some s => s =? 200
        | None => false
        end in
      do am <- get_this;
      run (if authenticated && _saveAuthedAgent am then
             run set_authedAgent (Some request_agent);
             do r <- defined res;
             set_authedAgent (Some (saveCookies r request_agent))
           else ret tt);
      resolve (JBool authenticated)
  end.

Definition addAccessKey_end (accessKey : JSValue)
  (err : option TransportError) (res : option Response) : Cb unit :=
  match err with
  | Some e => reject (error_message (getErrorMessage e res))
  | None =>
      do r <- defined res;
      if ok r then
        match header r !! "location" with
        | Some location =>
            if negb (String.eqb location "")
               && negb (lastIndexOf "/" location =? -1)
            then resolve (set_prop accessKey "id"
                            (JStr (substr location (lastIndexOf "/" location + 1))))
            else resolve JNull
        | None => resolve JNull
        end
      else
        let body := tryJSON (text r) in
        if truthy body then reject body
        else reject (error_message_status (text r) (status r))
  end.

Definition getAccessKey_end (err : option TransportError) (res : option Response)
  : Cb unit :=
  match err with
  | Some e => reject (error_message (getErrorMessage e res))
  | None =>
      do r <- defined res;
      let body := tryJSON (text r) in
      if ok r then
        if truthy body then
          resolve (get_prop body "accessKey")
        else reject (error_message_status
                       ("Could not parse response: " +:+ text r) (status r))
      else
        if truthy body then reject body
        else reject (error_message_status (text r) (status r))
  end.

Definition getAccessKeys_end (err : option TransportError) (res : option Response)
  : Cb unit :=
  match err with
  | Some e => reject (error_message (getErrorMessage e res))
  | None =>
      do r <- defined res;
      let body := tryJSON (text r) in
      if ok r then
        if truthy body then
          resolve (get_prop body "accessKeys")
        else reject (error_message_status
                       ("Could not parse response: " +:+ text r) (status r))
      else
        if truthy body then reject body
        else reject (error_message_status (text r) (status r))
  end.

Definition removeAccessKey_end (err : option TransportError) (res : option Response)
  : Cb unit :=
  match err with
  | Some e => reject (error_message (getErrorMessage e res))
  | None =>
      do r <- defined res;
      if ok r then resolve JNull
      else
        let body := tryJSON (text r) in
        if truthy body then reject body
        else reject (error_message_status (text r) (status r))
  end.

Definition getAccountInfo_end (err : option TransportError) (res : option Response)
  : Cb unit :=
  match err with
  | Some e => reject (error_message (getErrorMessage e res))
  | None =>
      do r <- defined res;
      let body := tryJSON (text r) in
      if ok r then
        if truthy body then
          run set_account (get_prop body "account");
          do am <- get_this;
          resolve (account am)
        else reject (error_message_status
                       ("Could not parse response: " +:+ text r) (status r))
      else
        if truthy body then reject body
        else reject (error_message_status (text r) (status r))
  end.

Definition updateAccountInfo_end (err : option TransportError) (res : option Response)
  : Cb unit :=
  match err with
  | Some e => reject (error_message (getErrorMessage e res))
  | None =>
      do r <- defined res;
      if ok r then resolve JNull
      else
        let body := tryJSON (text r) in
        if truthy body then reject body
        else reject (error_message_status (text r) (status r))
  end.

Definition getApps_end (err : option TransportError) (res : option Response)
  : Cb unit :=
  match err with
  | Some e => reject (error_message (getErrorMessage e res))
  | None =>
      do r <- defined res;
      let body := tryJSON (text r) in
      if ok r then
        if truthy body then
          resolve (get_prop body "apps")
        else reject (error_message_status
                       ("Could not parse response: " +:+ text r) (status r))
      else
        if truthy body then reject body
        else reject (error_message_status (text r) (status r))
  end.

Definition getApp_end (err : option TransportError) (res : option Response)
  : Cb unit :=
  match err with
  | Some e => reject (error_message (getErrorMessage e res))
  | None =>
      do r <- defined res;
      let body := tryJSON (text r) in
      if ok r then
        if truthy body then
          resolve (get_prop body "app")
        else reject (error_message_status
                       ("Could not parse response: " +:+ text r) (status r))
      else
        if truthy body then reject body
        else reject (error_message_status (text r) (status r))
  end.

Definition addApp_end (app : JSValue)
  (err : option TransportError) (res : option Response) : Cb unit :=
  match err with
  | Some e => reject (error_message (getErrorMessage e res))
  | None =>
      do r <- defined res;
      if ok r then
        match header r !! "location" with
        | Some location =>
            if negb (String.eqb location "")
               && negb (lastIndexOf "/" location =? -1)
            then resolve (set_prop app "id"
                            (JStr (substr location (lastIndexOf "/" location + 1))))
            else resolve JNull
        | None => resolve JNull
        end
      else
        let body := tryJSON (text r) in
        if truthy body then reject body
        else reject (error_message_status (text r) (status r))
  end.

Definition removeApp_end (err : option TransportError) (res : option Response)
  : Cb unit :=
  match err with
  | Some e => reject (error_message (getErrorMessage e res))
  | None =>
      do r <- defined res;
      if ok r then resolve JNull
      else
        let body := tryJSON (text r) in
        if truthy body then reject body
        else reject (error_message_status (text r) (status r))
  end.

Definition updateApp_end (err : option TransportError) (res : option Response)
  : Cb unit :=
  match err with
  | Some e => reject (error_message (getErrorMessage e res))
  | None =>
      do r <- defined res;
      if ok r then resolve JNull
      else
        let body := tryJSON (text r) in
        if truthy body then reject body
        else reject (error_message_status (text r) (status r))
  end.

Definition addDeployment_end (deployment : JSValue)
  (err : option TransportError) (res : option Response) : Cb unit :=
  match err with
  | Some e => reject (error_message (getErrorMessage e res))
  | None =>
      do r <- defined res;
      if ok r then
        match header r !! "location" with
        | Some location =>
            if negb (String.eqb location "")
               && negb (lastIndexOf "/" location =? -1)
            then resolve (set_prop deployment "id"
                            (JStr (substr location (lastIndexOf "/" location + 1))))
            else resolve JNull
        | None => resolve JNull
        end
      else
        let body := tryJSON (text r) in
        if truthy body then reject body
        else reject (error_message_status (text r) (status r))
  end.

Definition getDeployments_end (err : option TransportError) (res : option Response)
  : Cb unit :=
  match err with
  | Some e => reject (error_message (getErrorMessage e res))
  | None =>
      do r <- defined res;
      let body := tryJSON (text r) in
      if ok r then
        if truthy body then
          resolve (get_prop body "deployments")
        else reject (error_message_status
                       ("Could not parse response: " +:+ text r) (status r))
      else
        if truthy body then reject body
        else reject (error_message_status (text r) (status r))
  end.

Definition getDeployment_end (err : option TransportError) (res : option Response)
  : Cb unit :=
  match err with
  | Some e => reject (error_message (getErrorMessage e res))
  | None =>
      do r <- defined res;
      let body := tryJSON (text r) in
      if ok r then
        if truthy body then
          resolve (get_prop body "deployment")
        else reject (error_message_status
                       ("Could not parse response: " +:+ text r) (status r))
      else
        if truthy body then reject body
        else reject (error_message_status (text r) (status r))
  end.

Definition updateDeployment_end (err : option TransportError) (res : option Response)
  : Cb unit :=
  match err with
  | Some e => reject (error_message (getErrorMessage e res))
  | None =>
      do r <- defined res;
      if ok r then resolve JNull
      else
        let body := tryJSON (text r) in
        if truthy body then reject body
        else reject (error_message_status (text r) (status r))
  end.

Definition removeDeployment_end (err : option TransportError) (res : option Response)
  : Cb unit :=
  match err with
  | Some e => reject (error_message (getErrorMessage e res))
  | None =>
      do r <- defined res;
      if ok r then resolve JNull
      else
        let body := tryJSON (text r) in
        if truthy body then reject body
        else reject (error_message_status (text r) (status r))
  end.

(** The outer [if (res.ok)] has no [else]; the inner one repeats the test. *)
Definition addDeploymentKey_end (err : option TransportError)
  (res : option Response) : Cb unit :=
  match err with
  | Some e => reject (error_message (getErrorMessage e res))
  | None =>
      do r <- defined res;
      if ok r then
        let body := tryJSON (text r) in
        if ok r then
          if truthy body then resolve (get_prop body "deploymentKey")
          else reject (error_message_status
                         ("Could not parse response: " +:+ text r) (status r))
        else
          if truthy body then reject body
          else reject (error_message_status (text r) (status r))
      else ret tt
  end.

Definition getDeploymentKeys_end (err : option TransportError) (res : option Response)
  : Cb unit :=
  match err with
  | Some e => reject (error_message (getErrorMessage e res))
  | None =>
      do r <- defined res;
      let body := tryJSON (text r) in
      if ok r then
        if truthy body then
          resolve (get_prop body "deploymentKeys")
        else reject (error_message_status
                       ("Could not parse response: " +:+ text r) (status r))
      else
        if truthy body then reject body
        else reject (error_message_status (text r) (status r))
  end.

Definition getDeploymentKey_end (err : option TransportError) (res : option Response)
  : Cb unit :=
  match err with
  | Some e => reject (error_message (getErrorMessage e res))
  | None =>
      do r <- defined res;
      let body := tryJSON (text r) in
      if ok r then
        if truthy body then
          resolve (get_prop body "deploymentKey")
        else reject (error_message_status
                       ("Could not parse response: " +:+ text r) (status r))
      else
        if truthy body then reject body
        else reject (error_message_status (text r) (status r))
  end.

Definition updateDeploymentKey_end (err : option TransportError) (res : option Response)
  : Cb unit :=
  match err with
  | Some e => reject (error_message (getErrorMessage e res))
  | None =>
      do r <- defined res;
      if ok r then resolve JNull
      else
        let body := tryJSON (text r) in
        if truthy body then reject body
        else reject (error_message_status (text r) (status r))
  end.

Definition deleteDeploymentKey_end (err : option TransportError) (res : option Response)
  : Cb unit :=
  match err with
  | Some e => reject (error_message (getErrorMessage e res))
  | None =>
      do r <- defined res;
      if ok r then resolve JNull
      else
        let body := tryJSON (text r) in
        if truthy body then reject body
        else reject (error_message_status (text r) (status r))
  end.

Definition addPackage_end (err : option TransportError) (res : option Response)
  : Cb unit :=
  match err with
  | Some e => reject (error_message (getErrorMessage e res))
  | None =>
      do r <- defined res;
      if ok r then resolve JNull
      else
        let body := tryJSON (text r) in
        if truthy body then reject body
        else reject (error_message_status (text r) (status r))
  end.

Definition getPackage_end (err : option TransportError) (res : option Response)
  : Cb unit :=
  match err with
  | Some e => reject (error_message (getErrorMessage e res))
  | None =>
      do r <- defined res;
      let body := tryJSON (text r) in
      if ok r then
        if truthy body then
          resolve (get_prop body "package")
        else reject (error_message_status
                       ("Could not parse response: " +:+ text r) (status r))
      else
        if truthy body then reject body
        else reject (error_message_status (text r) (status r))
  end.

(** The callback a method registers with [req.end]. *)
Definition complete (op : Operation)
  : option TransportError -> option Response -> Cb unit :=
  match op with
  | LoginWithAccessToken _ => loginWithAccessToken_end
  | Logout => logout_end
  | IsAuthenticated => isAuthenticated_end
  | AddAccessKey uuid description =>
      addAccessKey_end (new_accessKey uuid description)
  | GetAccessKey _ => getAccessKey_end
  | GetAccessKeys => getAccessKeys_end
  | RemoveAccessKey _ => removeAccessKey_end
  | GetAccountInfo => getAccountInfo_end
  | UpdateAccountInfo _ => updateAccountInfo_end
  | GetApps => getApps_end
  | GetApp _ => getApp_end
  | AddApp appName description => addApp_end (new_app appName description)
  | RemoveApp _ => removeApp_end
  | UpdateApp _ => updateApp_end
  | AddDeployment _ name description =>
      addDeployment_end (new_deployment name description)
  | GetDeployments _ => getDeployments_end
  | GetDeployment _ _ => getDeployment_end
  | UpdateDeployment _ _ => updateDeployment_end
  | RemoveDeployment _ _ => removeDeployment_end
  | AddDeploymentKey _ _ _ _ => addDeploymentKey_end
  | GetDeploymentKeys _ _ => getDeploymentKeys_end
  | GetDeploymentKey _ _ _ => getDeploymentKey_end
  | UpdateDeploymentKey _ _ _ _ => updateDeploymentKey_end
  | DeleteDeploymentKey _ _ _ => deleteDeploymentKey_end
  | AddPackage _ _ _ _ _ _ _ => addPackage_end
  | GetPackage _ _ => getPackage_end
  end.

(** *** A whole call: the method, then the completion of its round-trip *)

(** Who builds the request of a method: login and logout use [request]
    itself, the others the stored agent when there is one. *)
Definition builder (am : AccountManager) (op : Operation) : Requester :=
  match op with
  | LoginWithAccessToken _ | Logout => Superagent
  | _ => requester_of am
  end.

Record Outcome := {
  requests : list Request;       (* the requests put on the wire *)
  calls : list Settlement;       (* every resolve/reject of the promise *)
  manager : AccountManager;      (* the manager object afterwards *)
  crashed : bool;                (* the callback died of a TypeError *)
  thrown : option JSValue        (* the method threw instead of returning *)
}.

Definition perform (am : AccountManager) (op : Operation)
  (err : option TransportError) (res : option Response) : Outcome :=
  match issue am op with
  | Raises exn =>
      {| requests := []; calls := []; manager := am; crashed := false;
         thrown := Some exn |}
  | Settles s =>
      {| requests := []; calls := [s]; manager := am; crashed := false;
         thrown := None |}
  | Sent req =>
      let r := complete op err res
                 {| this := response_event am (builder am op) res;
                    settled := [] |} in
      {| requests := [req];
         calls := settled (world_of r);
         manager := this (world_of r);
         crashed := threw r;
         thrown := None |}
  end.

End Client.

(** ** The command executor

    Modelled from the spec: the executor's source is not part of the
    sources at hand, only its test-suite is.  The module follows sections 2
    and 4.2 of the specification for the flow of a destructive command and
    the CLI test-suite for the SDK stub and the logged messages. *)

Module CommandExecutor.

(** An entry of a listing, as the executor reads it. *)
Record Named := { id : string; name : string }.

(** The part of the SDK the destructive commands use.  A method either
    fulfils its promise or rejects it with an error. *)
Record Sdk := {
  getAccessKeys : Try (list Named);
  getApps : Try (list Named);
  getDeployments : string -> Try (list Named);
  removeAccessKey : string -> Try unit;
  removeApp : string -> Try unit;
  removeDeployment : string -> string -> Try unit
}.

(** The [SdkStub] of the CLI test-suite. *)
Definition SdkStub : Sdk :=
  {| getAccessKeys := Returns [ {| id := "7"; name := "8" |} ];
     getApps := Returns [ {| id := "1"; name := "a" |};
                          {| id := "2"; name := "b" |} ];
     getDeployments := fun _ => Returns [ {| id := "3"; name := "Production" |};
                                          {| id := "4"; name := "Staging" |} ];
     removeAccessKey := fun _ => Returns tt;
     removeApp := fun _ => Returns tt;
     removeDeployment := fun _ _ => Returns tt |}.

Inductive SdkMethod :=
| M_getAccessKeys
| M_getApps
| M_getDeployments
| M_removeAccessKey
| M_removeApp
| M_removeDeployment.

(** What an execution does to the outside, in order. *)
Inductive Event :=
| Invoked (m : SdkMethod) (args : list string)
| Confirm (wasConfirmed : bool)
| Log (msg : string).

Inductive Failure :=
| NotFound (what : string)
| SdkError (e : JSValue).

Inductive Command :=
| accessKeyRemove (accessKeyName : string)
| appRemove (appName : string)
| deploymentRemove (appName deploymentName : string).

(** A promise chain: the events so far and how the chain ended. *)
Definition Exec (A : Type) : Type := list Event * (Failure + A).

Definition pure {A} (a : A) : Exec A := ([], inr a).

Definition and_then {A B} (c : Exec A) (k : A -> Exec B) : Exec B :=
  match c with
  | (t, inr a) => let '(t', r) := k a in ((t ++ t')%list, r)
  | (t, inl f) => (t, inl f)
  end.

Notation "'exec' x <- c ; k" := (and_then c (fun x => k))
  (at level 10, x name, c at level 100, k at level 200).

Definition invoke {A} (m : SdkMethod) (args : list string) (r : Try A) : Exec A :=
  ([Invoked m args],
   match r with
   | Returns a => inr a
   | Throws e => inl (SdkError e)
   end).

Definition confirm (answer : bool) : Exec bool := ([Confirm answer], inr answer).

Definition log (msg : string) : Exec unit := ([Log msg], inr tt).

(** Name-to-id resolution: the first entry whose name is exactly [n]. *)
Definition resolve_name (what n : string) (entries : list Named) : Exec string :=
  match List.find (fun e => String.eqb (name e) n) entries with
  | Some e => pure (id e)
  | None => ([], inl (NotFound what))
  end.

Definition quoted (s : string) : string :=
  String "034"%char s +:+ String "034"%char EmptyString.

(** Modelled from the spec: [script/command-executor.ts] is not part of the
    sources; the spec (sections 2 and 4.2) has a destructive command resolve
    names to ids by list-then-filter, then ask for confirmation, then call
    the SDK, and the CLI test-suite fixes the logged messages. *)
Definition execute (sdk : Sdk) (wasConfirmed : bool) (command : Command)
  : Exec unit :=
  match command with
  | accessKeyRemove accessKeyName =>
      exec keys <- invoke M_getAccessKeys [] (getAccessKeys sdk);
      exec accessKeyId <- resolve_name "access key" accessKeyName keys;
      exec yes <- confirm wasConfirmed;
      if yes then
        exec _u <- invoke M_removeAccessKey [accessKeyId]
                     (removeAccessKey sdk accessKeyId);
        log ("Removed access key " +:+ quoted accessKeyName +:+ ".")
      else log "Remove cancelled."
  | appRemove appName =>
      exec apps <- invoke M_getApps [] (getApps sdk);
      exec appId <- resolve_name "app" appName apps;
      exec yes <- confirm wasConfirmed;
      if yes then
        exec _u <- invoke M_removeApp [appId] (removeApp sdk appId);
        log ("Removed app " +:+ quoted appName +:+ ".")
      else log "Remove cancelled."
  | deploymentRemove appName deploymentName =>
      exec apps <- invoke M_getApps [] (getApps sdk);
      exec appId <- resolve_name "app" appName apps;
      exec deployments <- invoke M_getDeployments [appId] (getDeployments sdk appId);
      exec deploymentId <- resolve_name "deployment" deploymentName deployments;
      exec yes <- confirm wasConfirmed;
      if yes then
        exec _u <- invoke M_removeDeployment [appId; deploymentId]
                     (removeDeployment sdk appId deploymentId);
        log ("Removed deployment " +:+ quoted deploymentName
             +:+ " from app " +:+ quoted appName +:+ ".")
      else log "Remove cancelled."
  end.

Definition is_remove (m : SdkMethod) : bool :=
  match m with
  | M_removeAccessKey | M_removeApp | M_removeDeployment => true
  | _ => false
  end.

(** The remove calls of a trace. *)
Fixpoint removals (t : list Event) : list Event :=
  match t with
  | Invoked m args :: rest =>
      if is_remove m then Invoked m args :: removals rest else removals rest
  | _ :: rest => removals rest
  | [] => []
  end.

(** The messages a trace logs. *)
Fixpoint logged (t : list Event) : list string :=
  match t with
  | Log msg :: rest => msg :: logged rest
  | _ :: rest => logged rest
  | [] => []
  end.

(** Whether a trace asked for confirmation and got [answer]. *)
Fixpoint answered (answer : bool) (t : list Event) : bool :=
  match t with
  | Confirm b :: rest => Bool.eqb b answer || answered answer rest
  | _ :: rest => answered answer rest
  | [] => false
  end.

End CommandExecutor.

(** ** The specification's vocabulary *)

(** The substring after the last occurrence of [c], if [c] occurs. *)
Fixpoint after_last (c : ascii) (s : string) : option string :=
  match s with
  | EmptyString => None
  | String a rest =>
      match after_last c rest with
      | Some t => Some t
      | None => if Ascii.eqb a c then Some rest else None
      end
  end.

(** What a create operation settles with, in the specification's words:
    the resource with the trailing path segment of [Location] as its id,
    [null] when the header is absent or has no slash. *)
Definition spec_created (resource : JSValue) (r : Response) : Settlement :=
  match header r !! "location" with
  | Some location =>
      match after_last "/" location with
      | Some segment => Resolved (set_prop resource "id" (JStr segment))
      | None => Resolved JNull
      end
  | None => Resolved JNull
  end.

(** What a failed response settles with, in the specification's words: the
    parsed body if the text parses, the raw text and the status otherwise. *)
Definition spec_error_rejection (JSON_parse : string -> option JSValue)
  (r : Response) : Settlement :=
  match JSON_parse (text r) with
  | Some body => Rejected body
  | None => Rejected (error_message_status (text r) (status r))
  end.

(** The create operations and the resource each one builds. *)
Definition created_resource (op : Operation) : option JSValue :=
  match op with
  | AddAccessKey uuid description => Some (new_accessKey uuid description)
  | AddApp appName description => Some (new_app appName description)
  | AddDeployment _ name description => Some (new_deployment name description)
  | AddDeploymentKey _ _ name description =>
      Some (generateDeploymentKey name description false None)
  | _ => None
  end.

(** The listing operations and the field of the body each one returns. *)
Definition listing_field (op : Operation) : option string :=
  match op with
  | GetAccessKeys => Some "accessKeys"
  | GetApps => Some "apps"
  | GetDeployments _ => Some "deployments"
  | GetDeploymentKeys _ _ => Some "deploymentKeys"
  | _ => None
  end.

(** The operations that parse the body of a successful response. *)
Definition parses_success_body (op : Operation) : bool :=
  match op with
  | GetAccessKey _ | GetAccessKeys | GetAccountInfo | GetApps | GetApp _
  | GetDeployments _ | GetDeployment _ _ | GetDeploymentKeys _ _
  | GetDeploymentKey _ _ _ | GetPackage _ _ | AddDeploymentKey _ _ _ _ => true
  | _ => false
  end.

(** [res ? res.status : err.status], as a value. *)
Definition reported_status (err : option TransportError) (res : option Response)
  : option Z :=
  match res with
  | Some r => Some (status r)
  | None =>
      match err with
      | Some e => err_status e
      | None => None
      end
  end.

(** The create-operation property, as the specification words it. *)
Definition create_claim (JSON_parse : string -> option JSValue)
  (base64_decode : string -> Try string) : Prop :=
  forall am op resource r,
    created_resource op = Some resource ->
    ok r = true ->
    calls (perform JSON_parse base64_decode am op None (Some r))
    = [spec_created resource r].

(** The failed-response property, as the specification words it: every
    response received with a non-success status flag ends in the rejection
    [spec_error_rejection]. *)
Definition error_body_claim (JSON_parse : string -> option JSValue)
  (base64_decode : string -> Try string) : Prop :=
  forall am op req err r,
    issue JSON_parse base64_decode am op = Sent req ->
    ok r = false ->
    calls (perform JSON_parse base64_decode am op err (Some r))
    = [spec_error_rejection JSON_parse r].

(** The exactly-once property, as the specification words it: for any
    combination of transport error and response. *)
Definition exactly_once_claim (JSON_parse : string -> option JSValue)
  (base64_decode : string -> Try string) : Prop :=
  forall am op err res,
    exists s, calls (perform JSON_parse base64_decode am op err res) = [s].

(** The specification's reading of a login that is not atomic: some
    round-trip that the transport can deliver ends in a rejected login and
    yet in a changed manager. *)
Definition rejected_login_claim (JSON_parse : string -> option JSValue)
  (base64_decode : string -> Try string) : Prop :=
  exists am accessToken err res e,
    delivered err res = true
    /\ _saveAuthedAgent am = true
    /\ calls (perform JSON_parse base64_decode am
                (LoginWithAccessToken accessToken) err res) = [Rejected e]
    /\ manager (perform JSON_parse base64_decode am
                  (LoginWithAccessToken accessToken) err res) <> am.

(** ** Sample inputs *)

Module Sample.

Definition node : AccountManager := constructor false "http://localhost:3000".

Definition quote : string := String "034"%char EmptyString.

(** The text [{"message":"denied","statusCode":403}]. *)
Definition denied_text : string :=
  "{" +:+ quote +:+ "message" +:+ quote +:+ ":" +:+ quote +:+ "denied" +:+ quote
  +:+ "," +:+ quote +:+ "statusCode" +:+ quote +:+ ":403}".

(** The text [{"apps":[{"id":"1","name":"a"},{"id":"2","name":"b"}]}]. *)
Definition apps_text : string :=
  "{" +:+ quote +:+ "apps" +:+ quote +:+ ":[{" +:+ quote +:+ "id" +:+ quote +:+ ":"
  +:+ quote +:+ "1" +:+ quote +:+ "," +:+ quote +:+ "name" +:+ quote +:+ ":"
  +:+ quote +:+ "a" +:+ quote +:+ "},{" +:+ quote +:+ "id" +:+ quote +:+ ":"
  +:+ quote +:+ "2" +:+ quote +:+ "," +:+ quote +:+ "name" +:+ quote +:+ ":"
  +:+ quote +:+ "b" +:+ quote +:+ "}]}".

Definition response (success : bool) (code : Z) (body : string)
  (location : option string) : Response :=
  {| ok := success;
     status := code;
     text := body;
     header := match location with
               | Some l => <["location" := l]> ∅
               | None => ∅
               end |}.

(** base-64 of [{"accessKeyName":"k","providerName":"GitHub","providerUniqueId":"42"}]. *)
Definition valid_token : string :=
  "eyJhY2Nlc3NLZXlOYW1lIjoiayIsInByb3ZpZGVyTmFtZSI6IkdpdEh1YiIsInByb3ZpZGVyVW5pcXVlSWQiOiI0MiJ9".

(** base-64 of [{"accessKeyName":"k"}]. *)
Definition anonymous_token : string := "eyJhY2Nlc3NLZXlOYW1lIjoiayJ9".

Definition unauthorized : TransportError :=
  {| err_status := Some 401; message := "Unauthorized" |}.

Definition unreachable : TransportError :=
  {| err_status := None; message := "connect ECONNREFUSED" |}.

Definition browser : AccountManager := constructor true "http://localhost:3000".

(** A node manager that holds the agent of an earlier login. *)
Definition logged_in : AccountManager :=
  {| _authedAgent := Some {| jar := ["sid=old"] |};
     _saveAuthedAgent := true;
     account := JUndefined;
     serverUrl := "http://localhost:3000" |}.

(** The text [{"account":{"id":"u1"}}]. *)
Definition account_text : string :=
  "{" +:+ quote +:+ "account" +:+ quote +:+ ":{" +:+ quote +:+ "id" +:+ quote
  +:+ ":" +:+ quote +:+ "u1" +:+ quote +:+ "}}".

(** The text [{"app":{"id":"1"}}]. *)
Definition app_text : string :=
  "{" +:+ quote +:+ "app" +:+ quote +:+ ":{" +:+ quote +:+ "id" +:+ quote
  +:+ ":" +:+ quote +:+ "1" +:+ quote +:+ "}}".

(** base-64 of login information whose providerName is the empty string. *)
Definition nameless_token : string :=
  "eyJhY2Nlc3NLZXlOYW1lIjoiayIsInByb3ZpZGVyTmFtZSI6IiIsInByb3ZpZGVyVW5pcXVlSWQiOiI0MiJ9".

Definition forbidden : TransportError :=
  {| err_status := Some 403; message := "Forbidden" |}.

Definition server_error : TransportError :=
  {| err_status := Some 500; message := "Internal Server Error" |}.

Definition session_cookie (success : bool) (code : Z) (cookie : string)
  : Response :=
  {| ok := success; status := code; text := EmptyString;
     header := <["set-cookie" := cookie]> ∅ |}.

End Sample.

(** ** The rest of the client's surface *)

(** [get accountId()], that is [this.account.id]: a TypeError ([None]) while
    no account is stored. *)
Definition accountId (am : AccountManager) : option JSValue :=
  match account am with
  | JUndefined | JNull => None
  | a => Some (get_prop a "id")
  end.

(** The methods that settle with [resolve(null)] on success. *)
Definition resolves_null (op : Operation) : bool :=
  match op with
  | LoginWithAccessToken _ | Logout | RemoveAccessKey _ | UpdateAccountInfo _
  | RemoveApp _ | UpdateApp _ | UpdateDeployment _ _ | RemoveDeployment _ _
  | UpdateDeploymentKey _ _ _ _ | DeleteDeploymentKey _ _ _
  | AddPackage _ _ _ _ _ _ _ => true
  | _ => false
  end.

(** The methods that return one record and the field of the body it is in. *)
Definition record_field (op : Operation) : option string :=
  match op with
  | GetAccessKey _ => Some "accessKey"
  | GetAccountInfo => Some "account"
  | GetApp _ => Some "app"
  | GetDeployment _ _ => Some "deployment"
  | GetDeploymentKey _ _ _ => Some "deploymentKey"
  | GetPackage _ _ => Some "package"
  | _ => None
  end.

(** The methods whose code assigns to a field of [this]. *)
Definition writes_manager (op : Operation) : bool :=
  match op with
  | LoginWithAccessToken _ | Logout | IsAuthenticated | GetAccountInfo => true
  | _ => false
  end.

(** The methods that build their request with [request] itself instead of
    the stored agent. *)
Definition bypasses_agent (op : Operation) : bool :=
  match op with
  | LoginWithAccessToken _ | Logout => true
  | _ => false
  end.

(** The create methods that take the id from the [Location] header, with
    the name and the description they put in the resource. *)
Definition creates (op : Operation) : option (string * option string) :=
  match op with
  | AddAccessKey uuid description => Some (uuid, description)
  | AddApp appName description => Some (appName, description)
  | AddDeployment _ name description => Some (name, description)
  | _ => None
  end.

(** One call of a method together with the completion of its round-trip. *)
Record Call := {
  call_op : Operation;
  call_err : option TransportError;
  call_res : option Response
}.

(** Calls made one after the other, each after the previous one has
    completed: the manager at the end and every request sent on the way. *)
Fixpoint session (JSON_parse : string -> option JSValue)
  (base64_decode : string -> Try string) (am : AccountManager)
  (steps : list Call) : AccountManager * list Request :=
  match steps with
  | [] => (am, [])
  | c :: rest =>
      let o := perform JSON_parse base64_decode am
                 (call_op c) (call_err c) (call_res c) in
      let '(am', sent) := session JSON_parse base64_decode (manager o) rest in
      (am', (requests o ++ sent)%list)
  end.

(** * Properties *)

(** ** The trailing path segment *)

Lemma lastIndexOf_from_absent (c : ascii) (s : string) :
  forall i last, after_last c s = None -> lastIndexOf_from c s i last = last.
Proof.
  induction s as [|a rest IH]; intros i last H; simpl in *.
  - reflexivity.
  - destruct (after_last c rest) eqn:E; [discriminate|].
    destruct (Ascii.eqb a c); [discriminate|].
    now apply IH.
Qed.

Lemma lastIndexOf_from_present (c : ascii) (s : string) :
  forall i last t,
    after_last c s = Some t ->
    exists k : nat,
      lastIndexOf_from c s i last = i + Z.of_nat k /\ drop_chars (S k) s = t.
Proof.
  induction s as [|a rest IH]; intros i last t H; simpl in H.
  - discriminate.
  - destruct (after_last c rest) as [t'|] eqn:E.
    + injection H as <-.
      destruct (IH (i + 1) (if Ascii.eqb a c then i else last) t' eq_refl)
        as (k & Hk & Hd).
      exists (S k). split.
      * simpl lastIndexOf_from. rewrite Hk. lia.
      * exact Hd.
    + destruct (Ascii.eqb a c) eqn:Eq; [|discriminate].
      injection H as <-.
      exists O. split.
      * simpl lastIndexOf_from. rewrite Eq.
        rewrite lastIndexOf_from_absent by assumption. lia.
      * reflexivity.
Qed.

(** [lastIndexOf] finds nothing exactly when the character does not occur. *)
Lemma lastIndexOf_absent (c : ascii) (s : string) :
  after_last c s = None -> lastIndexOf c s = -1.
Proof. intros H. unfold lastIndexOf. now apply lastIndexOf_from_absent. Qed.

(** [s.substr(s.lastIndexOf(c) + 1)] is the substring after the last [c]. *)
Lemma substr_lastIndexOf (c : ascii) (s t : string) :
  after_last c s = Some t ->
  lastIndexOf c s <> -1 /\ substr s (lastIndexOf c s + 1) = t.
Proof.
  intros H. unfold lastIndexOf.
  destruct (lastIndexOf_from_present c s 0 (-1) t H) as (k & Hk & Hd).
  rewrite Hk. split; [lia|].
  unfold substr.
  destruct (0 + Z.of_nat k + 1 <? 0) eqn:E; [apply Z.ltb_lt in E; lia|].
  replace (Z.to_nat (0 + Z.of_nat k + 1)) with (S k) by lia.
  exact Hd.
Qed.

Lemma after_last_none (c : ascii) (s : string) :
  after_last c s = None <-> contains_char c s = false.
Proof.
  induction s as [|a rest IH]; simpl.
  - tauto.
  - destruct (after_last c rest) eqn:E.
    + split; [discriminate|]. intros H.
      apply Bool.orb_false_iff in H as [_ H].
      apply IH in H. discriminate H.
    + destruct (Ascii.eqb a c); simpl.
      * split; discriminate.
      * split; intros _; [now apply IH | reflexivity].
Qed.

(** [after_last] splits the string at a [c] that is followed by no other. *)
Lemma after_last_split (c : ascii) (s t : string) :
  after_last c s = Some t ->
  exists pre, s = pre +:+ String c t /\ contains_char c t = false.
Proof.
  revert t. induction s as [|a rest IH]; intros t H; simpl in H.
  - discriminate.
  - destruct (after_last c rest) as [t'|] eqn:E.
    + injection H as <-.
      destruct (IH t' eq_refl) as (pre & -> & Hn).
      exists (String a pre). split; [reflexivity | exact Hn].
    + destruct (Ascii.eqb a c) eqn:Eq; [|discriminate].
      injection H as <-. apply Ascii.eqb_eq in Eq. subst a.
      exists EmptyString. split; [reflexivity | now apply after_last_none].
Qed.

Lemma after_last_empty (c : ascii) (s : string) :
  String.eqb s EmptyString = true -> after_last c s = None.
Proof. destruct s; [reflexivity | discriminate]. Qed.

Lemma lastIndexOf_from_split (c : ascii) (s : string) :
  forall i last t,
    after_last c s = Some t ->
    exists pre,
      s = pre +:+ String c t
      /\ lastIndexOf_from c s i last = i + Z.of_nat (String.length pre).
Proof.
  induction s as [|a rest IH]; intros i last t H; simpl in H.
  - discriminate.
  - destruct (after_last c rest) as [t'|] eqn:E.
    + injection H as <-.
      destruct (IH (i + 1) (if Ascii.eqb a c then i else last) t' eq_refl)
        as (pre & Hs & Hi).
      exists (String a pre). split.
      * rewrite Hs. reflexivity.
      * simpl lastIndexOf_from. rewrite Hi. simpl String.length. lia.
    + destruct (Ascii.eqb a c) eqn:Eq; [|discriminate].
      injection H as <-. apply Ascii.eqb_eq in Eq. subst a.
      exists EmptyString. split; [reflexivity|].
      simpl lastIndexOf_from. rewrite Ascii.eqb_refl.
      rewrite lastIndexOf_from_absent by assumption. simpl. lia.
Qed.

(** X12: [lastIndexOf] returns [-1] exactly when the character does not
    occur; otherwise it is the length of a prefix that is followed by the
    character and then by [substr] from the next index, a suffix in which
    the character does not occur any more. *)
Theorem lastIndexOf_substr_segment (c : ascii) (s : string) :
  (lastIndexOf c s = -1 <-> contains_char c s = false)
  /\ (lastIndexOf c s <> -1 ->
      exists pre,
        s = pre +:+ String c (substr s (lastIndexOf c s + 1))
        /\ lastIndexOf c s = Z.of_nat (String.length pre)
        /\ contains_char c (substr s (lastIndexOf c s + 1)) = false).
Proof.
  destruct (after_last c s) as [t|] eqn:E.
  - destruct (substr_lastIndexOf c s t E) as [Hne Hsub].
    destruct (lastIndexOf_from_split c s 0 (-1) t E) as (pre & Hs & Hi).
    destruct (after_last_split c s t E) as (_ & _ & Hno).
    split.
    + split; [intros H; contradiction|].
      intros H. apply after_last_none in H. congruence.
    + intros _. exists pre. rewrite Hsub. unfold lastIndexOf. rewrite Hi.
      split; [exact Hs | split; [lia | exact Hno]].
  - pose proof (lastIndexOf_absent c s E) as H.
    split.
    + split; intros _; [now apply after_last_none | exact H].
    + intros Hne. contradiction.
Qed.

Section ClientProperties.

Variable JSON_parse : string -> option JSValue.
Variable base64_decode : string -> Try string.

Abbreviation performs := (perform JSON_parse base64_decode).
Abbreviation issues := (issue JSON_parse base64_decode).
Abbreviation completes := (complete JSON_parse).
Abbreviation parsed := (tryJSON JSON_parse).

(** The response event changes nothing but the stored agent. *)
Lemma response_event_save am b res :
  _saveAuthedAgent (response_event am b res) = _saveAuthedAgent am.
Proof. destruct b, res; reflexivity. Qed.

Lemma response_event_account am b res :
  account (response_event am b res) = account am.
Proof. destruct b, res; reflexivity. Qed.

Lemma response_event_url am b res :
  serverUrl (response_event am b res) = serverUrl am.
Proof. destruct b, res; reflexivity. Qed.

Lemma response_event_superagent am res : response_event am Superagent res = am.
Proof. reflexivity. Qed.

Lemma response_event_none am b : response_event am b None = am.
Proof. destruct b; reflexivity. Qed.

(** The callbacks run from a fresh promise, after the response event. *)
Lemma perform_sent am op req err res :
  issues am op = Sent req ->
  performs am op err res
  = let r := completes op err res
               {| this := response_event am (builder am op) res;
                  settled := [] |} in
    {| requests := [req];
       calls := settled (world_of r);
       manager := this (world_of r);
       crashed := threw r;
       thrown := None |}.
Proof. intros H. unfold perform. now rewrite H. Qed.

(** [err && err.status !== 401], by the status of the error. *)
Lemma fatal_status (e : TransportError) :
  fatal (Some e)
  = match err_status e with
    | Some s => if s =? 401 then None else Some e
    | None => Some e
    end.
Proof.
  unfold fatal. destruct (err_status e) as [z|]; [|reflexivity].
  destruct z as [|p|p]; try reflexivity.
  repeat (destruct p as [p|p|]; try reflexivity).
Qed.

Lemma fatal_none : fatal None = None.
Proof. reflexivity. Qed.

(** The three kinds of completion the transport delivers. *)
Lemma delivered_cases (err : option TransportError) (res : option Response) :
  delivered err res = true ->
  (exists r, err = None /\ res = Some r /\ ok r = true)
  \/ (exists e r, err = Some e /\ res = Some r /\ ok r = false
        /\ err_status e = Some (status r))
  \/ (exists e, err = Some e /\ res = None /\ err_status e = None).
Proof.
  unfold delivered. destruct err as [e|], res as [r|]; intros H.
  - right. left. exists e, r.
    destruct (ok r); [discriminate H|].
    destruct (status r / 100 =? 2); [discriminate H|].
    destruct (err_status e) as [s|]; [|discriminate H].
    apply Z.eqb_eq in H. subst s. auto.
  - right. right. exists e.
    destruct (err_status e); [discriminate H | auto].
  - left. exists r. apply andb_prop in H as [H _]. auto.
  - discriminate H.
Qed.

(** The [Location] branch of a create callback agrees with the
    specification's wording. *)
Lemma location_branch (resource : JSValue) (r : Response) (w : World) :
  match header r !! "location" with
  | Some location =>
      if negb (String.eqb location EmptyString)
         && negb (lastIndexOf "/" location =? -1)
      then resolve (set_prop resource "id"
                      (JStr (substr location (lastIndexOf "/" location + 1))))
      else resolve JNull
  | None => resolve JNull
  end w
  = Done tt {| this := this w;
               settled := settled w ++ [spec_created resource r] |}.
Proof.
  unfold spec_created.
  destruct (header r !! "location") as [location|]; [|reflexivity].
  destruct (after_last "/" location) as [t|] eqn:E.
  - destruct (substr_lastIndexOf _ _ _ E) as [Hi Hs].
    rewrite Hs.
    destruct (String.eqb location EmptyString) eqn:El.
    + rewrite (after_last_empty _ _ El) in E. discriminate.
    + apply Z.eqb_neq in Hi. rewrite Hi. reflexivity.
  - rewrite (lastIndexOf_absent _ _ E). simpl.
    now rewrite Bool.andb_false_r.
Qed.

Ltac callback :=
  unfold perform; cbn [issue send complete builder];
  unfold loginWithAccessToken_end, logout_end, isAuthenticated_end,
    addAccessKey_end, getAccessKey_end, getAccessKeys_end, removeAccessKey_end,
    getAccountInfo_end, updateAccountInfo_end, getApps_end, getApp_end,
    addApp_end, removeApp_end, updateApp_end, addDeployment_end,
    getDeployments_end, getDeployment_end, updateDeployment_end,
    removeDeployment_end, addDeploymentKey_end, getDeploymentKeys_end,
    getDeploymentKey_end, updateDeploymentKey_end, deleteDeploymentKey_end,
    addPackage_end, getPackage_end, completion_status;
  cbv [bind defined ret get_this];
  cbn [calls requests manager crashed thrown this settled];
  rewrite ?response_event_superagent, ?response_event_none,
    ?response_event_save.

Ltac settle :=
  cbv [bind defined ret get_this resolve reject set_authedAgent set_account];
  cbn [world_of threw settled this calls requests manager crashed thrown
       _authedAgent _saveAuthedAgent account serverUrl app];
  rewrite ?response_event_save, ?response_event_account, ?response_event_url.

Ltac tidy :=
  cbn [_authedAgent _saveAuthedAgent account serverUrl this settled
       response_event requester_of with_agent];
  rewrite ?Bool.andb_false_r, ?response_event_save.

(** Every branch of a callback. *)
Ltac branches :=
  rewrite ?fatal_none; tidy;
  repeat (match goal with
          | |- context [match fatal (Some ?e) with _ => _ end] =>
              destruct (fatal (Some e))
          | |- context [if ?b then _ else _] => destruct b
          | |- context [match ?h !! ?k with _ => _ end] => destruct (h !! k)
          | |- context [match err_status ?e with _ => _ end] =>
              destruct (err_status e)
          end; tidy);
  settle.

Ltac explore := callback; branches.

(** ** Create operations *)

(** C2, as the code has it: on a successful response addAccessKey, addApp
    and addDeployment resolve the resource they built with the trailing path
    segment of the Location header (the substring after its last slash) as
    id, and resolve null when the header is absent or has no slash;
    addDeploymentKey does not read the header: it resolves the deploymentKey
    field of the parsed body, and rejects with the parse error when the body
    does not parse to a truthy value. *)
Theorem create_settles (am : AccountManager) (op : Operation)
  (resource : JSValue) (r : Response) :
  created_resource op = Some resource ->
  ok r = true ->
  calls (performs am op None (Some r))
  = match op with
    | AddDeploymentKey _ _ _ _ =>
        [ if truthy (parsed (text r))
          then Resolved (get_prop (parsed (text r)) "deploymentKey")
          else Rejected (error_message_status
                           ("Could not parse response: " +:+ text r) (status r)) ]
    | _ => [ spec_created resource r ]
    end.
Proof.
  intros Hres Hok.
  destruct op; simpl in Hres; try discriminate;
    injection Hres as <-; callback; rewrite Hok.
  1-3: rewrite location_branch; reflexivity.
  destruct (truthy (parsed (text r))); reflexivity.
Qed.

(** ** Transport errors *)

(** X4: a transport error ends every method but logout and isAuthenticated
    with one rejection carrying the response text, or the error's message
    when there is none; the two exceptions do the same unless the status of
    the error is 401. *)
Lemma transport_error_rejects (am : AccountManager) (op : Operation)
  (req : Request) (e : TransportError) (res : option Response) :
  issues am op = Sent req ->
  (op = Logout \/ op = IsAuthenticated -> err_status e <> Some 401) ->
  calls (performs am op (Some e) res)
  = [Rejected (error_message (getErrorMessage e res))].
Proof.
  intros Hsent Hfatal.
  rewrite (perform_sent _ _ _ _ _ Hsent). clear Hsent.
  assert (F : op = Logout \/ op = IsAuthenticated -> fatal (Some e) = Some e).
  { intros H. specialize (Hfatal H). rewrite fatal_status.
    destruct (err_status e) as [z|]; [|reflexivity].
    destruct (z =? 401) eqn:E; [|reflexivity].
    apply Z.eqb_eq in E. subst z. now contradiction Hfatal. }
  destruct op; callback; rewrite ?F by auto; reflexivity.
Qed.

(** ** Exactly one settlement *)

(** X1: whenever a response is delivered, the callback of every method
    settles its promise exactly once and does not crash, except
    addDeploymentKey on a failed response without transport error. *)
Lemma settles_once (am : AccountManager) (op : Operation) (req : Request)
  (err : option TransportError) (r : Response) :
  issues am op = Sent req ->
  (forall a d n c, op = AddDeploymentKey a d n c -> err <> None \/ ok r = true) ->
  exists s,
    calls (performs am op err (Some r)) = [s]
    /\ crashed (performs am op err (Some r)) = false.
Proof.
  intros Hsent Hkey.
  rewrite (perform_sent _ _ _ _ _ Hsent). clear Hsent.
  destruct op; callback;
    try (destruct (Hkey _ _ _ _ eq_refl) as [He|He];
         [destruct err; [|congruence] | rewrite He; destruct err]);
    try destruct err as [e|]; branches; eauto.
Qed.

(** The branch C1 names: when the round-trip of addDeploymentKey ends with
    no transport error and a response whose status flag is not success, the
    request has been sent, the callback returns normally, and the promise
    has been neither resolved nor rejected. *)
Lemma addDeploymentKey_failure_never_settles (am : AccountManager)
  (appId deploymentId name : string) (description : option string)
  (r : Response) :
  ok r = false ->
  let o := performs am (AddDeploymentKey appId deploymentId name description)
             None (Some r) in
  length (requests o) = 1%nat /\ calls o = [] /\ crashed o = false.
Proof.
  intros Hok. callback. rewrite Hok. settle. auto.
Qed.


(** ** Failed responses *)

(** C3, as the code has it: a response with a non-success status reaches
    the callback together with a transport error of that status, and the
    callback then rejects with the raw response text (the error's message
    when the text is empty) as message, neither parsed nor with a
    statusCode.  A status of 401 is the exception for two methods:
    isAuthenticated resolves false, and logout goes on to the error body,
    which it rejects with as parsed when it parses to a truthy value and as
    raw text and status otherwise. *)
Theorem failed_response_rejection (am : AccountManager) (op : Operation)
  (req : Request) (e : TransportError) (r : Response) :
  issues am op = Sent req ->
  delivered (Some e) (Some r) = true ->
  calls (performs am op (Some e) (Some r))
  = match op, status r =? 401 with
    | IsAuthenticated, true => [Resolved (JBool false)]
    | Logout, true =>
        [Rejected (if truthy (parsed (text r)) then parsed (text r)
                   else error_message_status (text r) (status r))]
    | _, _ =>
        [Rejected (error_message
                     (if String.eqb (text r) EmptyString then message e
                      else text r))]
    end.
Proof.
  intros Hsent Hd.
  destruct (delivered_cases _ _ Hd)
    as [(r' & H & _) | [(e' & r' & He & Hr & Hok & Hst) | (e' & _ & H & _)]];
    try discriminate H.
  injection He as <-. injection Hr as <-.
  rewrite (perform_sent _ _ _ _ _ Hsent). clear Hsent.
  destruct op; callback; rewrite ?fatal_status, ?Hst;
    unfold getErrorMessage;
    destruct (status r =? 401) eqn:E;
    try (destruct (String.eqb (text r) EmptyString); reflexivity).
  - settle. rewrite Hok.
    destruct (truthy (parsed (text r))); reflexivity.
  - apply Z.eqb_eq in E. settle. rewrite E. cbn.
    destruct (_saveAuthedAgent am); reflexivity.
Qed.

(** ** Unparseable success bodies *)

(** C4: for every operation that parses the body of a successful response
    and every response delivered with the success flag whose text does not
    parse as JSON, the promise is rejected with the message
    [Could not parse response: ] followed by the raw text, and with the
    response status as statusCode. *)
Theorem unparseable_success_rejects (am : AccountManager) (op : Operation)
  (r : Response) :
  parses_success_body op = true ->
  ok r = true ->
  JSON_parse (text r) = None ->
  calls (performs am op None (Some r))
  = [ Rejected (error_message_status
                  ("Could not parse response: " +:+ text r) (status r)) ].
Proof.
  intros Hop Hok Hparse.
  destruct op; try discriminate Hop; callback; rewrite Hok;
    unfold tryJSON; rewrite Hparse; reflexivity.
Qed.

(** ** Login with an access token *)

(** C5: when the decoded access token does not parse as JSON, or parses to
    a value without a providerName or without a providerUniqueId,
    loginWithAccessToken rejects with the message [Invalid access key.] and
    puts no request on the wire. *)
Theorem invalid_token_rejects_without_request (am : AccountManager)
  (accessToken decoded : string) (err : option TransportError)
  (res : option Response) :
  base64_decode accessToken = Returns decoded ->
  (JSON_parse decoded = None
   \/ exists info, JSON_parse decoded = Some info
        /\ (get_prop info "providerName" = JUndefined
            \/ get_prop info "providerUniqueId" = JUndefined)) ->
  requests (performs am (LoginWithAccessToken accessToken) err res) = []
  /\ calls (performs am (LoginWithAccessToken accessToken) err res)
     = [Rejected (error_message "Invalid access key.")].
Proof.
  intros Hdec Hbad.
  unfold perform, issue, getLoginInfo, tryJSON. rewrite Hdec.
  destruct Hbad as [Hn | (info & Hi & [Hp | Hp])].
  - rewrite Hn. simpl. auto.
  - rewrite Hi, Hp. simpl. rewrite Bool.orb_true_r. simpl. auto.
  - rewrite Hi, Hp. simpl. rewrite !Bool.orb_true_r. simpl. auto.
Qed.

(** C9, as the code has it: in the session-saving environment every
    round-trip of loginWithAccessToken that the transport completes without
    error carries a success response: the promise is resolved and
    [_authedAgent] then holds a fresh agent with that response's cookies,
    whatever agent was stored before.  Every other completion comes with a
    transport error: the promise is rejected and the manager is left exactly
    as it was. *)
Theorem login_agent (am : AccountManager) (accessToken : string)
  (req : Request) (err : option TransportError) (res : option Response) :
  delivered err res = true ->
  issues am (LoginWithAccessToken accessToken) = Sent req ->
  let o := performs am (LoginWithAccessToken accessToken) err res in
  match err with
  | None =>
      calls o = [Resolved JNull]
      /\ exists r,
           res = Some r
           /\ _authedAgent (manager o)
              = if _saveAuthedAgent am then Some (saveCookies r request_agent)
                else _authedAgent am
  | Some e =>
      calls o = [Rejected (error_message (getErrorMessage e res))]
      /\ manager o = am
  end.
Proof.
  intros Hd Hsent o. subst o.
  rewrite (perform_sent _ _ _ _ _ Hsent). clear Hsent.
  destruct (delivered_cases _ _ Hd)
    as [(r & -> & -> & Hok) | [(e & r & -> & -> & Hok & Hst) | (e & -> & -> & Hst)]];
    callback.
  - destruct (_saveAuthedAgent am); settle; rewrite Hok; settle;
      (split; [reflexivity | exists r; split; reflexivity]).
  - split; reflexivity.
  - split; reflexivity.
Qed.

(** A login that the transport completes and that ends in a rejection has
    left the manager exactly as it was: the callback returns before any
    assignment, and without a request nothing is assigned either. *)
Lemma rejected_login_keeps_manager (am : AccountManager) (accessToken : string)
  (err : option TransportError) (res : option Response) (e : JSValue) :
  delivered err res = true ->
  calls (performs am (LoginWithAccessToken accessToken) err res) = [Rejected e] ->
  manager (performs am (LoginWithAccessToken accessToken) err res) = am.
Proof.
  intros Hd. unfold perform.
  destruct (issues am (LoginWithAccessToken accessToken)) as [req|s|exn];
    [|reflexivity ..].
  cbn [calls manager].
  destruct (delivered_cases _ _ Hd)
    as [(r & -> & -> & Hok) | [(e' & r & -> & -> & Hok & Hst) | (e' & -> & -> & Hst)]];
    callback.
  - destruct (_saveAuthedAgent am); settle; rewrite Hok; settle;
      intros H; discriminate H.
  - reflexivity.
  - reflexivity.
Qed.

(** ** Listings *)

(** C6: for every listing operation and every successful response whose
    text parses to a body carrying a sequence in the operation's field
    (accessKeys, apps, deployments, deploymentKeys), the promise is resolved
    with exactly that sequence, same elements in the same order; more
    generally it is resolved with whatever that field of a truthy body
    holds. *)
Theorem listing_resolves_sequence (am : AccountManager) (op : Operation)
  (field : string) (r : Response) (body : JSValue) :
  listing_field op = Some field ->
  ok r = true ->
  JSON_parse (text r) = Some body ->
  (forall items, get_prop body field = JArr items ->
   calls (performs am op None (Some r)) = [Resolved (JArr items)])
  /\ (truthy body = true ->
      calls (performs am op None (Some r)) = [Resolved (get_prop body field)]).
Proof.
  intros Hop Hok Hparse.
  assert (H : truthy body = true ->
              calls (performs am op None (Some r))
              = [Resolved (get_prop body field)]).
  { intros Ht.
    destruct op; try discriminate Hop; injection Hop as <-;
      callback; rewrite Hok; unfold tryJSON; rewrite Hparse, Ht; reflexivity. }
  split; [|exact H].
  intros items Hfield. rewrite H, Hfield; [reflexivity|].
  destruct body; try discriminate Hfield. reflexivity.
Qed.

(** ** Session check and logout *)

(** C8: when the round-trip of isAuthenticated completes with no transport
    error, or with a transport error of status 401, and its status (the
    response's, or the error's when no response came) is [s], the promise
    is resolved with [s = 200]: with false when the status is 401, however
    it was reported, and with true exactly when it is 200. *)
Theorem isAuthenticated_resolves (am : AccountManager)
  (err : option TransportError) (res : option Response) (s : Z) :
  fatal err = None ->
  reported_status err res = Some s ->
  let o := performs am IsAuthenticated err res in
  calls o = [Resolved (JBool (s =? 200))]
  /\ (s = 401 -> calls o = [Resolved (JBool false)])
  /\ (calls o = [Resolved (JBool true)] <-> s = 200).
Proof.
  intros Hfatal Hstatus o.
  assert (H : calls o = [Resolved (JBool (s =? 200))]).
  { subst o. callback. rewrite Hfatal.
    destruct res as [r|]; simpl in Hstatus.
    - injection Hstatus as ->. settle.
      destruct (s =? 200), (_saveAuthedAgent am); reflexivity.
    - destruct err as [e|]; [|discriminate].
      settle. rewrite Hstatus.
      unfold fatal in Hfatal. rewrite Hstatus in Hfatal.
      assert (s = 401) as ->.
      { destruct s as [|p|p]; try discriminate.
        repeat (destruct p as [p|p|]; try discriminate). reflexivity. }
      reflexivity. }
  rewrite H. repeat split.
  - intros ->. reflexivity.
  - intros E. injection E as E. now apply Z.eqb_eq.
  - intros ->. reflexivity.
Qed.

(** C10: logout sets [_authedAgent] to null when its round-trip completes
    without transport error and when it completes with a transport error of
    status 401, in which case a response without success flag has the
    promise rejected with the error body all the same: a rejected logout
    still drops the session.  On a transport error of any other status, or
    of none, the promise is rejected with the error's text and the manager
    is left as it was. *)
Theorem logout_clears_agent (am : AccountManager)
  (err : option TransportError) (res : option Response) :
  let o := performs am Logout err res in
  (err = None -> _authedAgent (manager o) = None)
  /\ (forall e, err = Some e -> err_status e = Some 401 ->
      _authedAgent (manager o) = None
      /\ forall r, res = Some r -> ok r = false ->
           calls o = [ Rejected (if truthy (parsed (text r))
                                 then parsed (text r)
                                 else error_message_status (text r) (status r)) ])
  /\ (forall e, err = Some e -> err_status e <> Some 401 ->
      manager o = am
      /\ calls o = [Rejected (error_message (getErrorMessage e res))]).
Proof.
  intros o. subst o. callback. split; [|split].
  - intros ->. rewrite fatal_none.
    destruct res as [r|]; [|reflexivity].
    destruct (ok r); [|destruct (truthy (parsed (text r)))]; reflexivity.
  - intros e -> He. rewrite fatal_status, He. cbn. split.
    + destruct res as [r|]; [|reflexivity].
      destruct (ok r); [|destruct (truthy (parsed (text r)))]; reflexivity.
    + intros r -> Hok. rewrite Hok.
      destruct (truthy (parsed (text r))); reflexivity.
  - intros e -> He.
    assert (F : fatal (Some e) = Some e).
    { rewrite fatal_status. destruct (err_status e) as [s|]; [|reflexivity].
      destruct (s =? 401) eqn:E; [|reflexivity].
      apply Z.eqb_eq in E. subst s. now contradiction He. }
    rewrite F. split; reflexivity.
Qed.

(** ** Coverage of the remaining behaviour *)

(** X2: whatever the completion of the round-trip delivers (error or not,
    response or not), a call never calls resolve or reject more than
    once. *)
Theorem never_settles_twice (am : AccountManager) (op : Operation)
  (err : option TransportError) (res : option Response) :
  (length (calls (performs am op err res)) <= 1)%nat.
Proof.
  unfold perform. destruct (issues am op) as [req|s|exn].
  - cbn [requests calls].
    destruct op, res as [r|], err as [e|]; explore; simpl; lia.
  - simpl. lia.
  - simpl. lia.
Qed.

(** X3: a callback dies of a TypeError only when no response object was
    delivered, and then the promise has not been settled: a crash never
    follows a resolve or a reject. *)
Theorem crash_needs_missing_response (am : AccountManager) (op : Operation)
  (err : option TransportError) (res : option Response) :
  crashed (performs am op err res) = true ->
  res = None /\ calls (performs am op err res) = [].
Proof.
  unfold perform. destruct (issues am op) as [req|s|exn].
  - cbn [requests calls crashed].
    destruct op, res as [r|], err as [e|]; explore;
      intros H; try discriminate H; auto.
  - discriminate.
  - discriminate.
Qed.

(** X5: on a successful response the methods without a result (login,
    logout, every remove, update and delete, and addPackage) resolve null
    without looking at the body. *)
Theorem void_methods_resolve_null (am : AccountManager) (op : Operation)
  (req : Request) (r : Response) :
  resolves_null op = true ->
  issues am op = Sent req ->
  ok r = true ->
  calls (performs am op None (Some r)) = [Resolved JNull].
Proof.
  intros Hop Hsent Hok.
  rewrite (perform_sent _ _ _ _ _ Hsent). clear Hsent.
  destruct op; try discriminate Hop; callback; cbn [fatal]; rewrite Hok;
    try destruct (_saveAuthedAgent am); reflexivity.
Qed.

(** X6: on a successful response whose body parses to a truthy value, a
    method that returns one record resolves the field of the body named
    after the record (accessKey, account, app, deployment, deploymentKey,
    package), and [undefined] when the body has no such field; it never
    rejects such a response. *)
Theorem record_methods_resolve_field (am : AccountManager) (op : Operation)
  (field : string) (r : Response) :
  record_field op = Some field ->
  ok r = true ->
  truthy (parsed (text r)) = true ->
  calls (performs am op None (Some r))
  = [Resolved (get_prop (parsed (text r)) field)].
Proof.
  intros Hop Hok Ht.
  destruct op; try discriminate Hop; injection Hop as <-;
    callback; rewrite Hok, Ht; settle; reflexivity.
Qed.

(** X7: the methods other than loginWithAccessToken, logout,
    isAuthenticated and getAccountInfo assign nothing to the manager: the
    account stays, and the stored agent stays the same agent, which has
    saved the cookies of the response when it built a request that got
    one. *)
Theorem other_methods_keep_manager (am : AccountManager) (op : Operation)
  (err : option TransportError) (res : option Response) :
  writes_manager op = false ->
  let o := performs am op err res in
  account (manager o) = account am
  /\ _authedAgent (manager o)
     = match requests o, _authedAgent am, res with
       | _ :: _, Some a, Some r => Some (saveCookies r a)
       | _, stored, _ => stored
       end.
Proof.
  intros Hop o. subst o. unfold perform.
  destruct (issues am op) as [req|s|exn]; cbn [manager requests];
    [| destruct (_authedAgent am); split; reflexivity
     | destruct (_authedAgent am); split; reflexivity].
  destruct am as [agent save acct url].
  destruct op, res as [r|], err as [e|], agent as [a|];
    try discriminate Hop; explore; split; reflexivity.
Qed.

(** X8: no method ever changes the server URL or the session-saving flag of
    the manager. *)
Theorem configuration_is_constant (am : AccountManager) (op : Operation)
  (err : option TransportError) (res : option Response) :
  serverUrl (manager (performs am op err res)) = serverUrl am
  /\ _saveAuthedAgent (manager (performs am op err res)) = _saveAuthedAgent am.
Proof.
  unfold perform.
  destruct (issues am op) as [req|s|exn]; [|split; reflexivity ..].
  cbn [manager]. destruct am as [agent save acct url].
  destruct op, res as [r|], err as [e|], save, agent as [a|];
    explore; split; reflexivity.
Qed.

(** X9: getAccountInfo stores the account it resolves: after a successful
    response with a truthy body the [account] field holds the body's account,
    the promise is resolved with that same value, and [accountId] reads its
    id. *)
Theorem getAccountInfo_stores_account (am : AccountManager) (r : Response)
  (acc : JSValue) :
  ok r = true ->
  truthy (parsed (text r)) = true ->
  get_prop (parsed (text r)) "account" = acc ->
  truthy acc = true ->
  let o := performs am GetAccountInfo None (Some r) in
  account (manager o) = acc
  /\ calls o = [Resolved acc]
  /\ accountId (manager o) = Some (get_prop acc "id").
Proof.
  intros Hok Ht Hacc Hta o. subst o.
  callback. rewrite Hok, Ht. settle. rewrite Hacc.
  unfold accountId. cbn [account].
  repeat split. destruct acc; try discriminate Hta; reflexivity.
Qed.

(** X10: a getAccountInfo round-trip that does not deliver a successful
    response with a truthy body (a transport error, no success flag, a body
    that does not parse) leaves the stored account as it was. *)
Theorem getAccountInfo_failure_keeps_account (am : AccountManager)
  (err : option TransportError) (res : option Response) :
  (forall r, err = None -> res = Some r ->
             ok r && truthy (parsed (text r)) = false) ->
  account (manager (performs am GetAccountInfo err res)) = account am.
Proof.
  intros H. callback.
  destruct err as [e|]; [settle; reflexivity|].
  destruct res as [r|]; [|settle; reflexivity].
  specialize (H r eq_refl eq_refl).
  destruct (ok r), (truthy (parsed (text r))); try discriminate H;
    settle; reflexivity.
Qed.

(** X11: what isAuthenticated does to the stored agent.  On a response that
    comes without transport error, or with one of status 401, the promise
    is resolved with whether the response status is 200; the stored agent
    is replaced, by a fresh one holding the cookies of the response, only
    when that status is 200 in the session-saving environment, and
    otherwise, a 401 included, it stays the agent it was, having saved the
    cookies of the response: a failed session check does not drop it.  On a
    transport error of another status, or of none, the promise is rejected
    and the agent stays as well.  The account is never touched. *)
Theorem isAuthenticated_agent (am : AccountManager)
  (err : option TransportError) (res : option Response) :
  let o := performs am IsAuthenticated err res in
  let kept := match res with
              | Some r => option_map (saveCookies r) (_authedAgent am)
              | None => _authedAgent am
              end in
  account (manager o) = account am
  /\ (forall r,
        res = Some r ->
        err = None \/ (exists e, err = Some e /\ err_status e = Some 401) ->
        calls o = [Resolved (JBool (status r =? 200))]
        /\ _authedAgent (manager o)
           = if (status r =? 200) && _saveAuthedAgent am
             then Some (saveCookies r request_agent)
             else kept)
  /\ (forall e,
        err = Some e -> err_status e <> Some 401 ->
        calls o = [Rejected (error_message (getErrorMessage e res))]
        /\ _authedAgent (manager o) = kept).
Proof.
  intros o kept. subst o kept. unfold perform. cbn [issue send].
  cbn [manager calls]. destruct am as [agent save acct url].
  split; [|split].
  - destruct res as [r|], err as [e|], agent as [a|]; explore; reflexivity.
  - intros r -> Hguard.
    assert (F : fatal err = None).
    { destruct Hguard as [-> | (e & -> & He)]; [reflexivity|].
      rewrite fatal_status, He. reflexivity. }
    callback. rewrite F. cbn [_authedAgent _saveAuthedAgent].
    destruct agent as [a|]; tidy;
      destruct (status r =? 200), save; settle; split; reflexivity.
  - intros e -> He.
    assert (F : fatal (Some e) = Some e).
    { rewrite fatal_status. destruct (err_status e) as [s|]; [|reflexivity].
      destruct (s =? 401) eqn:E; [|reflexivity].
      apply Z.eqb_eq in E. subst s. now contradiction He. }
    callback. rewrite F.
    destruct res as [r|], agent as [a|]; tidy; settle; split; reflexivity.
Qed.

(** *** Requests and credentials *)

Lemma sent_credentials (am : AccountManager) (op : Operation) (req : Request) :
  issues am op = Sent req ->
  credentials req
  = if _saveAuthedAgent am then
      if bypasses_agent op then NoCredentials
      else match _authedAgent am with
           | Some a => CookiesFrom (jar a)
           | None => NoCredentials
           end
    else WithCredentials.
Proof.
  intros H.
  destruct op; cbn [issue send] in H;
    try match type of H with
        | context [id_of ?v] => destruct (id_of v)
        | context [member ?v ?k] => destruct (member v k)
        end;
    try discriminate H;
    try (injection H as <-; cbn [credentials bypasses_agent];
         unfold attachCredentials, requester_of;
         destruct (_saveAuthedAgent am), (_authedAgent am); reflexivity).
  - destruct (getLoginInfo JSON_parse base64_decode accessToken);
      [|discriminate].
    destruct (_ || _); [discriminate|].
    injection H as <-. cbn [credentials bypasses_agent].
    unfold attachCredentials. destruct (_saveAuthedAgent am); reflexivity.
  - destruct fileOrPath, (_saveAuthedAgent am) eqn:E; try discriminate H;
      injection H as <-; cbn [credentials bypasses_agent];
      unfold attachCredentials, requester_of; rewrite E;
      destruct (_authedAgent am); reflexivity.
Qed.

(** X13: the requests of loginWithAccessToken and logout are built with the
    superagent module itself, so in the session-saving environment they
    never carry the cookies of the stored agent, even when one is stored;
    in the browser they opt into ambient credentials like every request. *)
Theorem login_logout_send_no_cookies (am : AccountManager) (op : Operation)
  (req : Request) :
  bypasses_agent op = true ->
  issues am op = Sent req ->
  credentials req
  = if _saveAuthedAgent am then NoCredentials else WithCredentials.
Proof.
  intros Hop Hsent. rewrite (sent_credentials _ _ _ Hsent), Hop. reflexivity.
Qed.

(** X14: in the session-saving environment, once a loginWithAccessToken
    round-trip has completed with a response and no transport error, the
    request of the next call, of any method other than login and logout, is
    built with the agent made at that login: its cookies come from a jar
    that was handed the Set-Cookie of the login response and nothing else,
    whatever agent was stored before. *)
Theorem requests_after_login_use_its_jar (am : AccountManager)
  (accessToken : string) (req0 : Request) (r : Response)
  (op : Operation) (req : Request) :
  _saveAuthedAgent am = true ->
  issues am (LoginWithAccessToken accessToken) = Sent req0 ->
  bypasses_agent op = false ->
  issues (manager (performs am (LoginWithAccessToken accessToken) None (Some r)))
    op = Sent req ->
  credentials req
  = CookiesFrom match header r !! "set-cookie" with
                | Some c => [c]
                | None => []
                end.
Proof.
  intros Hsave Hsent0 Hop Hsent.
  rewrite (sent_credentials _ _ _ Hsent), Hop.
  rewrite (perform_sent _ _ _ _ _ Hsent0).
  callback. rewrite Hsave.
  settle. rewrite Hsave.
  destruct (ok r); [|destruct (truthy (parsed (text r)))]; settle;
    unfold saveCookies; destruct (header r !! "set-cookie"); reflexivity.
Qed.

(** X15: in the session-saving environment, after a logout round-trip that
    completed without transport error or with one of status 401, the
    request of the next call attaches no cookies, whatever agent was stored
    before and whether or not the logout was rejected; after a logout cut
    short by a transport error of another status, or of none, the next
    request of a method other than login and logout still uses the jar of
    the stored agent. *)
Theorem requests_after_logout (am : AccountManager)
  (err : option TransportError) (res : option Response)
  (op : Operation) (req : Request) :
  _saveAuthedAgent am = true ->
  issues (manager (performs am Logout err res)) op = Sent req ->
  (err = None \/ (exists e, err = Some e /\ err_status e = Some 401) ->
   credentials req = NoCredentials)
  /\ (forall e a,
        err = Some e -> err_status e <> Some 401 ->
        _authedAgent am = Some a -> bypasses_agent op = false ->
        credentials req = CookiesFrom (jar a)).
Proof.
  intros Hsave Hsent.
  rewrite (sent_credentials _ _ _ Hsent). clear Hsent.
  callback. split.
  - intros Hguard.
    assert (F : fatal err = None).
    { destruct Hguard as [-> | (e & -> & He)]; [reflexivity|].
      rewrite fatal_status, He. reflexivity. }
    rewrite F.
    destruct res as [r|]; settle;
      [destruct (ok r); [|destruct (truthy (parsed (text r)))]; settle|];
      rewrite Hsave; destruct (bypasses_agent op); reflexivity.
  - intros e a -> He Ha Hop.
    assert (F : fatal (Some e) = Some e).
    { rewrite fatal_status. destruct (err_status e) as [s|]; [|reflexivity].
      destruct (s =? 401) eqn:E; [|reflexivity].
      apply Z.eqb_eq in E. subst s. now contradiction He. }
    rewrite F. settle. rewrite Hsave, Hop, Ha. reflexivity.
Qed.

(** *** Login *)

(** X16: for a token that decodes to login information with a truthy
    providerName and providerUniqueId, loginWithAccessToken sends one POST
    to [/auth/login/accessToken] under the server URL, whose form carries
    exactly these two fields as identity and the token's accessKeyName as
    token. *)
Theorem login_request (am : AccountManager) (accessToken decoded : string)
  (err : option TransportError) (res : option Response) :
  base64_decode accessToken = Returns decoded ->
  truthy (parsed decoded) = true ->
  truthy (get_prop (parsed decoded) "providerName") = true ->
  truthy (get_prop (parsed decoded) "providerUniqueId") = true ->
  requests (performs am (LoginWithAccessToken accessToken) err res)
  = [ {| method := POST;
         url := serverUrl am +:+ "/auth/login/accessToken";
         credentials :=
           if _saveAuthedAgent am then NoCredentials else WithCredentials;
         payload :=
           LoginForm
             (JObj [("providerName", get_prop (parsed decoded) "providerName");
                    ("providerUniqueId",
                     get_prop (parsed decoded) "providerUniqueId")])
             (get_prop (parsed decoded) "accessKeyName") |} ].
Proof.
  intros Hdec Hi Hn Hu.
  unfold perform, issue, getLoginInfo. rewrite Hdec, Hi, Hn, Hu.
  cbn [negb orb requests]. unfold attachCredentials.
  destruct (_saveAuthedAgent am); reflexivity.
Qed.

(** When base-64 decoding of the token throws, the exception becomes
    the rejection of the promise: no request is sent and the manager is
    unchanged. *)
Lemma login_decode_exception (am : AccountManager) (accessToken : string)
  (exn : JSValue) (err : option TransportError) (res : option Response) :
  base64_decode accessToken = Throws exn ->
  let o := performs am (LoginWithAccessToken accessToken) err res in
  requests o = [] /\ calls o = [Rejected exn] /\ manager o = am.
Proof.
  intros Hdec. unfold perform, issue, getLoginInfo. rewrite Hdec.
  repeat split.
Qed.

(** X17: login information whose providerName or providerUniqueId is
    present but falsy (an empty string, 0, false, null) is refused like a
    missing one: rejection with [Invalid access key.], no request, manager
    unchanged. *)
Theorem login_falsy_identity (am : AccountManager) (accessToken decoded : string)
  (err : option TransportError) (res : option Response) :
  base64_decode accessToken = Returns decoded ->
  truthy (parsed decoded)
  && truthy (get_prop (parsed decoded) "providerName")
  && truthy (get_prop (parsed decoded) "providerUniqueId") = false ->
  let o := performs am (LoginWithAccessToken accessToken) err res in
  requests o = []
  /\ calls o = [Rejected (error_message "Invalid access key.")]
  /\ manager o = am.
Proof.
  intros Hdec Hf. unfold perform, issue, getLoginInfo. rewrite Hdec.
  destruct (truthy (parsed decoded)),
           (truthy (get_prop (parsed decoded) "providerName")),
           (truthy (get_prop (parsed decoded) "providerUniqueId"));
    try discriminate Hf; repeat split.
Qed.

(** *** Methods that end before any request *)

Lemma member_throws (v : JSValue) (k : string) (exn : JSValue) :
  member v k = Throws exn ->
  exn = TypeError /\ (v = JNull \/ v = JUndefined).
Proof.
  destruct v; intros H; try discriminate H; injection H as <-; auto.
Qed.

Lemma id_of_throws (v : JSValue) (exn : JSValue) :
  id_of v = Throws exn ->
  exn = TypeError /\ (v = JNull \/ v = JUndefined).
Proof.
  destruct v; intros H; try discriminate H; injection H as <-; auto.
Qed.

(** X18: a call ends without a request in these cases only.  Its promise is
    rejected at once when it is a loginWithAccessToken; an addPackage given
    a file path in the browser, rejected with the error of the stubbed
    [fs.createReadStream]; or a removeApp, updateApp, updateDeployment or
    removeDeployment given [null] or [undefined], rejected with the
    TypeError of reading its id.  And deleteDeploymentKey given [null] or
    [undefined] throws that TypeError itself, before it has made a promise.
    Every other call sends its request. *)
Theorem early_settlement (am : AccountManager) (op : Operation) :
  (forall s,
     issues am op = Settles s ->
     (exists accessToken, op = LoginWithAccessToken accessToken)
     \/ (exists appId deploymentId p description label appVersion isMandatory,
           op = AddPackage appId deploymentId (Path p) description label
                  appVersion isMandatory
           /\ _saveAuthedAgent am = false
           /\ s = Rejected (error_message
                    "Tried to call a node fs function from the browser."))
     \/ (exists arg,
           (arg = JNull \/ arg = JUndefined)
           /\ s = Rejected TypeError
           /\ (op = RemoveApp arg \/ op = UpdateApp arg
               \/ (exists appId, op = UpdateDeployment appId arg)
               \/ (exists appId, op = RemoveDeployment appId arg))))
  /\ (forall exn,
        issues am op = Raises exn ->
        exn = TypeError
        /\ exists appId deploymentId arg,
             (arg = JNull \/ arg = JUndefined)
             /\ op = DeleteDeploymentKey appId deploymentId arg).
Proof.
  split.
  - intros s H. destruct op; cbn [issue send] in H; try discriminate H.
    + left. eexists. reflexivity.
    + destruct (id_of app) eqn:E; [discriminate H|].
      injection H as <-. apply id_of_throws in E as [-> E].
      right. right. exists app. repeat split; auto.
    + destruct (member infoToChange "id") eqn:E; [discriminate H|].
      injection H as <-. apply member_throws in E as [-> E].
      right. right. exists infoToChange. repeat split; auto.
    + destruct (member infoToChange "id") eqn:E; [discriminate H|].
      injection H as <-. apply member_throws in E as [-> E].
      right. right. exists infoToChange. repeat split; [exact E|].
      right. right. left. exists appId. reflexivity.
    + destruct (id_of deployment) eqn:E; [discriminate H|].
      injection H as <-. apply id_of_throws in E as [-> E].
      right. right. exists deployment. repeat split; [exact E|].
      right. right. right. exists appId. reflexivity.
    + destruct (id_of deploymentKey); discriminate H.
    + right. left.
      destruct fileOrPath as [p|f], (_saveAuthedAgent am) eqn:E;
        try discriminate H.
      injection H as <-. repeat eexists.
  - intros exn H. destruct op; cbn [issue send] in H; try discriminate H.
    + destruct (getLoginInfo JSON_parse base64_decode accessToken);
        [destruct (_ || _)|]; discriminate H.
    + destruct (id_of app); discriminate H.
    + destruct (member infoToChange "id"); discriminate H.
    + destruct (member infoToChange "id"); discriminate H.
    + destruct (id_of deployment); discriminate H.
    + destruct (id_of deploymentKey) eqn:E; [discriminate H|].
      injection H as <-. apply id_of_throws in E as [-> E].
      split; [reflexivity|].
      exists appId, deploymentId, deploymentKey. split; [exact E|reflexivity].
    + destruct fileOrPath, (_saveAuthedAgent am); discriminate H.
Qed.

(** *** Arguments given as a record or as an id *)

(** X19: removeApp, removeDeployment and deleteDeploymentKey accept the
    record or its id: a call with a record whose [id] is the string [i]
    behaves exactly like the call with [i]. *)
Theorem record_or_id (am : AccountManager) (record : JSValue) (i : string)
  (appId deploymentId : string)
  (err : option TransportError) (res : option Response) :
  get_prop record "id" = JStr i ->
  performs am (RemoveApp record) err res
  = performs am (RemoveApp (JStr i)) err res
  /\ performs am (RemoveDeployment appId record) err res
     = performs am (RemoveDeployment appId (JStr i)) err res
  /\ performs am (DeleteDeploymentKey appId deploymentId record) err res
     = performs am (DeleteDeploymentKey appId deploymentId (JStr i)) err res.
Proof.
  intros H.
  assert (E : id_of record = Returns i).
  { destruct record; try discriminate H.
    unfold id_of, member. rewrite H. reflexivity. }
  unfold perform. cbn [issue complete builder]. rewrite E. cbn [id_of].
  repeat split.
Qed.

(** *** Created resources *)

(** X20: when addAccessKey, addApp or addDeployment gets a successful
    response whose Location header contains a slash, the resource it
    resolves has the header's trailing segment as id and the name and
    description passed to the call, and the body sent in the request was
    that resource while its id was still unset. *)
Theorem created_resource_fields (am : AccountManager) (op : Operation)
  (name : string) (description : option string) (r : Response)
  (location : string) :
  creates op = Some (name, description) ->
  ok r = true ->
  header r !! "location" = Some location ->
  lastIndexOf "/" location <> -1 ->
  exists v req sent,
    calls (performs am op None (Some r)) = [Resolved v]
    /\ get_prop v "id" = JStr (substr location (lastIndexOf "/" location + 1))
    /\ get_prop v "name" = JStr name
    /\ get_prop v "description" = optional description
    /\ requests (performs am op None (Some r)) = [req]
    /\ payload req = Json sent
    /\ truthy (get_prop sent "id") = false
    /\ v = set_prop sent "id" (get_prop v "id").
Proof.
  intros Hop Hok Hloc Hidx.
  assert (Hne : String.eqb location EmptyString = false).
  { destruct location; [|reflexivity]. now contradiction Hidx. }
  apply Z.eqb_neq in Hidx.
  destruct op; try discriminate Hop; injection Hop as <- <-;
    callback; rewrite Hok, Hloc, Hne, Hidx; settle;
    do 3 eexists; repeat split.
Qed.

(** *** Sessions *)

Lemma requests_perform (am : AccountManager) (op : Operation)
  (err : option TransportError) (res : option Response) (req : Request) :
  In req (requests (performs am op err res)) -> issues am op = Sent req.
Proof.
  unfold perform. destruct (issues am op) as [req'|s|exn]; cbn [requests].
  - intros [<-|[]]. reflexivity.
  - intros [].
  - intros [].
Qed.

Lemma browser_step (am : AccountManager) (op : Operation)
  (err : option TransportError) (res : option Response) :
  _saveAuthedAgent am = false ->
  _authedAgent am = None ->
  _saveAuthedAgent (manager (performs am op err res)) = false
  /\ _authedAgent (manager (performs am op err res)) = None.
Proof.
  intros Hsave Hagent. unfold perform.
  destruct (issues am op) as [req|s|exn]; [|split; assumption ..].
  cbn [manager]. destruct am as [agent save acct url].
  cbn in Hsave, Hagent. subst save agent.
  destruct op, res as [r|], err as [e|]; explore; split; reflexivity.
Qed.

(** X21: in the browser no agent is ever stored: starting without one,
    after any sequence of completed calls the manager still has none, and
    every request sent on the way opted into ambient credentials. *)
Theorem browser_session (steps : list Call) (am : AccountManager) :
  _saveAuthedAgent am = false ->
  _authedAgent am = None ->
  _authedAgent (fst (session JSON_parse base64_decode am steps)) = None
  /\ Forall (fun req => credentials req = WithCredentials)
       (snd (session JSON_parse base64_decode am steps)).
Proof.
  revert am. induction steps as [|c rest IH]; intros am Hsave Hagent.
  - split; [exact Hagent | constructor].
  - cbn [session].
    destruct (browser_step am (call_op c) (call_err c) (call_res c) Hsave Hagent)
      as [Hs Ha].
    specialize (IH _ Hs Ha).
    destruct (session JSON_parse base64_decode
                (manager (performs am (call_op c) (call_err c) (call_res c)))
                rest) as [am' sent].
    cbn [fst snd] in *. destruct IH as [IHa IHf]. split; [exact IHa|].
    apply Forall_app. split; [|exact IHf].
    apply Forall_forall. intros req Hin.
    apply list_elem_of_In in Hin.
    apply requests_perform in Hin.
    rewrite (sent_credentials _ _ _ Hin), Hsave. reflexivity.
Qed.

(** *** Shape of the requests *)

(** X23: every request goes to the manager's server, to a path that starts
    with a slash, and a GET or DELETE request never carries a body. *)
Theorem request_shape (am : AccountManager) (op : Operation) (req : Request) :
  issues am op = Sent req ->
  (exists path, url req = serverUrl am +:+ String "/" path)
  /\ (method req = GET \/ method req = DELETE -> payload req = NoPayload).
Proof.
  intros H.
  destruct op; cbn [issue send] in H;
    try match type of H with
        | context [id_of ?v] => destruct (id_of v)
        | context [member ?v ?k] => destruct (member v k)
        end;
    try discriminate H;
    try (injection H as <-; cbn [url method payload]; split;
         [eexists; reflexivity
         | intros [E|E]; first [discriminate E | reflexivity]]).
  - destruct (getLoginInfo JSON_parse base64_decode accessToken);
      [|discriminate].
    destruct (_ || _); [discriminate|].
    injection H as <-. cbn [url method payload]. split;
      [eexists; reflexivity | intros [E|E]; discriminate E].
  - destruct fileOrPath, (_saveAuthedAgent am); try discriminate H;
      injection H as <-; cbn [url method payload]; split;
      try (eexists; reflexivity); intros [E|E]; discriminate E.
Qed.

(** *** Promises left pending *)

(** X24: a call ends with no settled promise only when the callback died of
    a TypeError, when addDeploymentKey got a response without the success
    flag and no transport error, or when the method threw before making a
    promise (deleteDeploymentKey given null or undefined). *)
Theorem pending_only_if (am : AccountManager) (op : Operation)
  (err : option TransportError) (res : option Response) :
  calls (performs am op err res) = [] ->
  crashed (performs am op err res) = true
  \/ (exists appId deploymentId name description r,
        op = AddDeploymentKey appId deploymentId name description
        /\ err = None /\ res = Some r /\ ok r = false)
  \/ (exists appId deploymentId arg,
        (arg = JNull \/ arg = JUndefined)
        /\ op = DeleteDeploymentKey appId deploymentId arg
        /\ thrown (performs am op err res) = Some TypeError).
Proof.
  unfold perform. destruct (issues am op) as [req|s|exn] eqn:Hissue;
    [|discriminate|].
  - cbn [calls crashed].
    destruct op, res as [r|], err as [e|];
      try (explore; intros H; first [discriminate H | left; reflexivity]).
    callback. destruct (ok r) eqn:Hok.
    + destruct (truthy (parsed (text r))); settle; discriminate.
    + intros _. right. left. do 5 eexists. repeat split. exact Hok.
  - intros _. right. right.
    destruct op; cbn [issue send] in Hissue; try discriminate Hissue;
      try (destruct (getLoginInfo JSON_parse base64_decode accessToken);
           [destruct (_ || _)|]; discriminate Hissue);
      try (destruct (id_of app); discriminate Hissue);
      try (destruct (member infoToChange "id"); discriminate Hissue);
      try (destruct (id_of deployment); discriminate Hissue);
      try (destruct fileOrPath, (_saveAuthedAgent am); discriminate Hissue).
    destruct (id_of deploymentKey) eqn:E; [discriminate Hissue|].
    injection Hissue as <-. apply id_of_throws in E as [-> E].
    exists appId, deploymentId, deploymentKey. auto.
Qed.

End ClientProperties.

(** ** The client on the sample inputs *)



(** C2 fails as stated: on a 201 response with a Location header and an
    empty body, where the claim has addDeploymentKey resolve the key with id
    [k9], the code rejects with the parse error. *)
Lemma create_claim_counterexample :
  let r := Sample.response true 201 EmptyString
             (Some "/apps/1/deployments/4/deploymentKeys/k9") in
  let op := AddDeploymentKey "1" "4" "Staging" None in
  spec_created (generateDeploymentKey "Staging" None false None) r
  = Resolved (JObj [("id", JStr "k9"); ("name", JStr "Staging");
                    ("description", JUndefined); ("isPrimary", JBool false)])
  /\ calls (perform Runtime.JSON_parse Runtime.base64_decode Sample.node op
              None (Some r))
     = [Rejected (error_message_status "Could not parse response: " 201)]
  /\ ~ create_claim Runtime.JSON_parse Runtime.base64_decode.
Proof.
  intros r op. split; [reflexivity|]. split; [reflexivity|].
  intros H.
  specialize (H Sample.node op _ r eq_refl eq_refl).
  vm_compute in H. discriminate H.
Qed.

Lemma create_settles_witness :
  let r := Sample.response true 201 EmptyString (Some "/apps/abc") in
  created_resource (AddApp "a" None) = Some (new_app "a" None)
  /\ ok r = true
  /\ calls (perform Runtime.JSON_parse Runtime.base64_decode Sample.node
              (AddApp "a" None) None (Some r))
     = [Resolved (JObj [("name", JStr "a"); ("description", JUndefined);
                        ("id", JStr "abc")])].
Proof.
  intros r. split; [reflexivity|]. split; [reflexivity|].
  exact (create_settles Runtime.JSON_parse Runtime.base64_decode Sample.node
           (AddApp "a" None) (new_app "a" None) r eq_refl eq_refl).
Defined.

(** C3 fails as stated: a 403 whose body is JSON reaches the callback of
    getApps together with the transport error, and the promise is rejected
    with the raw text wrapped as message, where the claim has the parsed
    body. *)
Lemma error_body_claim_counterexample :
  let r := Sample.response false 403 Sample.denied_text None in
  delivered (Some Sample.forbidden) (Some r) = true
  /\ spec_error_rejection Runtime.JSON_parse r
     = Rejected (JObj [("message", JStr "denied"); ("statusCode", JNum 403)])
  /\ calls (perform Runtime.JSON_parse Runtime.base64_decode Sample.node
              GetApps (Some Sample.forbidden) (Some r))
     = [Rejected (JObj [("message", JStr Sample.denied_text)])]
  /\ ~ error_body_claim Runtime.JSON_parse Runtime.base64_decode.
Proof.
  intros r. split; [reflexivity|]. split; [reflexivity|].
  split; [reflexivity|].
  intros H.
  specialize (H Sample.node GetApps _ (Some Sample.forbidden) r
                eq_refl eq_refl).
  vm_compute in H. discriminate H.
Qed.

Lemma failed_response_rejection_witness :
  let r := Sample.response false 403 Sample.denied_text None in
  delivered (Some Sample.forbidden) (Some r) = true
  /\ calls (perform Runtime.JSON_parse Runtime.base64_decode Sample.node
              GetApps (Some Sample.forbidden) (Some r))
     = [Rejected (error_message Sample.denied_text)].
Proof.
  intros r. split; [reflexivity|].
  exact (failed_response_rejection Runtime.JSON_parse Runtime.base64_decode
           Sample.node GetApps _ Sample.forbidden r eq_refl eq_refl).
Defined.

Lemma unparseable_success_rejects_witness :
  let r := Sample.response true 200 "<html>" None in
  parses_success_body GetApps = true
  /\ ok r = true
  /\ Runtime.JSON_parse (text r) = None
  /\ calls (perform Runtime.JSON_parse Runtime.base64_decode Sample.node
              GetApps None (Some r))
     = [Rejected (error_message_status "Could not parse response: <html>" 200)].
Proof.
  intros r. split; [reflexivity|]. split; [reflexivity|]. split; [reflexivity|].
  exact (unparseable_success_rejects Runtime.JSON_parse Runtime.base64_decode
           Sample.node GetApps r eq_refl eq_refl eq_refl).
Defined.

Lemma invalid_token_rejects_without_request_witness :
  exists decoded info,
    Runtime.base64_decode Sample.anonymous_token = Returns decoded
    /\ Runtime.JSON_parse decoded = Some info
    /\ get_prop info "providerName" = JUndefined
    /\ requests (perform Runtime.JSON_parse Runtime.base64_decode Sample.node
                   (LoginWithAccessToken Sample.anonymous_token) None None) = []
    /\ calls (perform Runtime.JSON_parse Runtime.base64_decode Sample.node
                (LoginWithAccessToken Sample.anonymous_token) None None)
       = [Rejected (error_message "Invalid access key.")].
Proof.
  exists ("{" +:+ Sample.quote +:+ "accessKeyName" +:+ Sample.quote +:+ ":"
          +:+ Sample.quote +:+ "k" +:+ Sample.quote +:+ "}").
  exists (JObj [("accessKeyName", JStr "k")]).
  split; [reflexivity|]. split; [reflexivity|]. split; [reflexivity|].
  apply (invalid_token_rejects_without_request
           Runtime.JSON_parse Runtime.base64_decode Sample.node
           Sample.anonymous_token _ None None eq_refl).
  right. exists (JObj [("accessKeyName", JStr "k")]).
  split; [reflexivity|]. left. reflexivity.
Defined.

(** C9 fails as stated: a login answered 403 is rejected and the manager,
    stored agent included, is exactly what it was; and no completion the
    transport delivers ends in a rejected login with a changed manager. *)
Lemma rejected_login_claim_counterexample :
  let r := Sample.session_cookie false 403 "sid=new" in
  let o := perform Runtime.JSON_parse Runtime.base64_decode Sample.logged_in
             (LoginWithAccessToken Sample.valid_token)
             (Some Sample.forbidden) (Some r) in
  delivered (Some Sample.forbidden) (Some r) = true
  /\ calls o = [Rejected (error_message "Forbidden")]
  /\ manager o = Sample.logged_in
  /\ ~ rejected_login_claim Runtime.JSON_parse Runtime.base64_decode.
Proof.
  intros r o. split; [reflexivity|]. split; [reflexivity|].
  split; [reflexivity|].
  intros (am & accessToken & err & res & e & Hd & _ & Hcalls & Hchanged).
  apply Hchanged.
  exact (rejected_login_keeps_manager Runtime.JSON_parse Runtime.base64_decode
           am accessToken err res e Hd Hcalls).
Qed.

Lemma login_agent_witness :
  let r := Sample.session_cookie true 200 "sid=new" in
  let o := perform Runtime.JSON_parse Runtime.base64_decode Sample.logged_in
             (LoginWithAccessToken Sample.valid_token) None (Some r) in
  delivered None (Some r) = true
  /\ calls o = [Resolved JNull]
  /\ _authedAgent (manager o) = Some {| jar := ["sid=new"] |}.
Proof.
  intros r o. split; [reflexivity|].
  destruct (login_agent Runtime.JSON_parse Runtime.base64_decode
              Sample.logged_in Sample.valid_token _ None (Some r)
              eq_refl eq_refl) as (Hcalls & r' & Hr & Hagent).
  split; [exact Hcalls|].
  injection Hr as <-. exact Hagent.
Defined.

Lemma listing_resolves_sequence_witness :
  let r := Sample.response true 200 Sample.apps_text None in
  let items := [ JObj [("id", JStr "1"); ("name", JStr "a")];
                 JObj [("id", JStr "2"); ("name", JStr "b")] ] in
  listing_field GetApps = Some "apps"
  /\ ok r = true
  /\ Runtime.JSON_parse (text r) = Some (JObj [("apps", JArr items)])
  /\ calls (perform Runtime.JSON_parse Runtime.base64_decode Sample.node
              GetApps None (Some r))
     = [Resolved (JArr items)].
Proof.
  intros r items.
  split; [reflexivity|]. split; [reflexivity|]. split; [reflexivity|].
  exact (proj1 (listing_resolves_sequence
                  Runtime.JSON_parse Runtime.base64_decode
                  Sample.node GetApps "apps" r (JObj [("apps", JArr items)])
                  eq_refl eq_refl eq_refl) items eq_refl).
Defined.

Lemma isAuthenticated_resolves_witness :
  fatal (Some Sample.unauthorized) = None
  /\ reported_status (Some Sample.unauthorized) None = Some 401
  /\ calls (perform Runtime.JSON_parse Runtime.base64_decode Sample.node
              IsAuthenticated (Some Sample.unauthorized) None)
     = [Resolved (JBool false)].
Proof.
  split; [reflexivity|]. split; [reflexivity|].
  exact (proj1 (proj2 (isAuthenticated_resolves
                         Runtime.JSON_parse Runtime.base64_decode Sample.node
                         (Some Sample.unauthorized) None 401 eq_refl eq_refl))
           eq_refl).
Defined.

Lemma logout_clears_agent_witness :
  let r := Sample.response false 401 Sample.denied_text None in
  let o := perform Runtime.JSON_parse Runtime.base64_decode Sample.logged_in
             Logout (Some Sample.unauthorized) (Some r) in
  delivered (Some Sample.unauthorized) (Some r) = true
  /\ err_status Sample.unauthorized = Some 401
  /\ ok r = false
  /\ _authedAgent Sample.logged_in = Some {| jar := ["sid=old"] |}
  /\ _authedAgent (manager o) = None
  /\ calls o
     = [Rejected (JObj [("message", JStr "denied"); ("statusCode", JNum 403)])].
Proof.
  intros r o. split; [reflexivity|]. split; [reflexivity|].
  split; [reflexivity|]. split; [reflexivity|].
  destruct (proj1 (proj2 (logout_clears_agent
                            Runtime.JSON_parse Runtime.base64_decode
                            Sample.logged_in (Some Sample.unauthorized)
                            (Some r)))
              Sample.unauthorized eq_refl eq_refl) as [Hagent Hcalls].
  split; [exact Hagent | exact (Hcalls r eq_refl eq_refl)].
Defined.

Example connection_refused :
  calls (perform Runtime.JSON_parse Runtime.base64_decode Sample.node
           GetApps (Some Sample.unreachable) None)
  = [Rejected (error_message "connect ECONNREFUSED")].
Proof. reflexivity. Qed.

(** ** Destructive commands *)



(** ** The remaining behaviour on the sample inputs *)

Lemma settles_once_witness :
  exists s,
    calls (perform Runtime.JSON_parse Runtime.base64_decode Sample.node
             GetApps None (Some (Sample.response false 500 "oops" None))) = [s]
    /\ crashed (perform Runtime.JSON_parse Runtime.base64_decode Sample.node
                  GetApps None (Some (Sample.response false 500 "oops" None)))
       = false.
Proof.
  apply (settles_once Runtime.JSON_parse Runtime.base64_decode Sample.node
           GetApps _ None (Sample.response false 500 "oops" None) eq_refl).
  intros a d n c H. discriminate H.
Defined.

Lemma crash_needs_missing_response_witness :
  crashed (perform Runtime.JSON_parse Runtime.base64_decode Sample.logged_in
             Logout (Some Sample.unauthorized) None) = true
  /\ calls (perform Runtime.JSON_parse Runtime.base64_decode Sample.logged_in
              Logout (Some Sample.unauthorized) None) = [].
Proof.
  split; [reflexivity|].
  exact (proj2 (crash_needs_missing_response
                  Runtime.JSON_parse Runtime.base64_decode Sample.logged_in
                  Logout (Some Sample.unauthorized) None eq_refl)).
Defined.

Lemma transport_error_rejects_witness :
  calls (perform Runtime.JSON_parse Runtime.base64_decode Sample.node
           (RemoveApp (JStr "1")) (Some Sample.unauthorized)
           (Some (Sample.response false 401 "Unauthorized" None)))
  = [Rejected (error_message "Unauthorized")].
Proof.
  apply (transport_error_rejects Runtime.JSON_parse Runtime.base64_decode
           Sample.node (RemoveApp (JStr "1")) _ Sample.unauthorized
           (Some (Sample.response false 401 "Unauthorized" None)) eq_refl).
  intros [H|H]; discriminate H.
Defined.

Lemma void_methods_resolve_null_witness :
  resolves_null (RemoveApp (JStr "1")) = true
  /\ calls (perform Runtime.JSON_parse Runtime.base64_decode Sample.node
              (RemoveApp (JStr "1")) None
              (Some (Sample.response true 204 Sample.app_text None)))
     = [Resolved JNull].
Proof.
  split; [reflexivity|].
  exact (void_methods_resolve_null Runtime.JSON_parse Runtime.base64_decode
           Sample.node (RemoveApp (JStr "1")) _
           (Sample.response true 204 Sample.app_text None)
           eq_refl eq_refl eq_refl).
Defined.

Lemma record_methods_resolve_field_witness :
  record_field (GetApp "1") = Some "app"
  /\ calls (perform Runtime.JSON_parse Runtime.base64_decode Sample.node
              (GetApp "1") None
              (Some (Sample.response true 200 Sample.app_text None)))
     = [Resolved (JObj [("id", JStr "1")])].
Proof.
  split; [reflexivity|].
  exact (record_methods_resolve_field Runtime.JSON_parse Runtime.base64_decode
           Sample.node (GetApp "1") "app"
           (Sample.response true 200 Sample.app_text None)
           eq_refl eq_refl eq_refl).
Defined.

Lemma other_methods_keep_manager_witness :
  let o := perform Runtime.JSON_parse Runtime.base64_decode Sample.logged_in
             GetApps None (Some (Sample.session_cookie true 200 "sid=new")) in
  writes_manager GetApps = false
  /\ account (manager o) = JUndefined
  /\ _authedAgent (manager o) = Some {| jar := ["sid=old"; "sid=new"] |}.
Proof.
  intros o. split; [reflexivity|].
  exact (other_methods_keep_manager Runtime.JSON_parse Runtime.base64_decode
           Sample.logged_in GetApps None
           (Some (Sample.session_cookie true 200 "sid=new")) eq_refl).
Defined.

Lemma getAccountInfo_stores_account_witness :
  let o := perform Runtime.JSON_parse Runtime.base64_decode Sample.node
             GetAccountInfo None
             (Some (Sample.response true 200 Sample.account_text None)) in
  accountId Sample.node = None
  /\ account (manager o) = JObj [("id", JStr "u1")]
  /\ calls o = [Resolved (JObj [("id", JStr "u1")])]
  /\ accountId (manager o) = Some (JStr "u1").
Proof.
  intros o. split; [reflexivity|].
  exact (getAccountInfo_stores_account
           Runtime.JSON_parse Runtime.base64_decode Sample.node
           (Sample.response true 200 Sample.account_text None)
           (JObj [("id", JStr "u1")]) eq_refl eq_refl eq_refl eq_refl).
Defined.

Lemma getAccountInfo_failure_keeps_account_witness :
  let r := Sample.response true 200 "<html>" None in
  ok r && truthy (tryJSON Runtime.JSON_parse (text r)) = false
  /\ account (manager (perform Runtime.JSON_parse Runtime.base64_decode
                         Sample.node GetAccountInfo None (Some r)))
     = account Sample.node.
Proof.
  intros r. split; [reflexivity|].
  apply (getAccountInfo_failure_keeps_account
           Runtime.JSON_parse Runtime.base64_decode Sample.node None (Some r)).
  intros r' _ H. injection H as <-. reflexivity.
Defined.

Lemma lastIndexOf_substr_segment_witness :
  lastIndexOf "/" "/apps/abc" = 5
  /\ exists pre,
       "/apps/abc" = pre +:+ String "/" (substr "/apps/abc" 6)
       /\ lastIndexOf "/" "/apps/abc" = Z.of_nat (String.length pre)
       /\ contains_char "/" (substr "/apps/abc" 6) = false.
Proof.
  split; [reflexivity|].
  apply (proj2 (lastIndexOf_substr_segment "/" "/apps/abc")).
  discriminate.
Defined.

Lemma login_logout_send_no_cookies_witness :
  bypasses_agent Logout = true
  /\ exists req,
       issue Runtime.JSON_parse Runtime.base64_decode Sample.logged_in Logout
       = Sent req
       /\ credentials req = NoCredentials.
Proof.
  split; [reflexivity|]. eexists. split; [reflexivity|].
  exact (login_logout_send_no_cookies Runtime.JSON_parse Runtime.base64_decode
           Sample.logged_in Logout _ eq_refl eq_refl).
Defined.

Lemma requests_after_login_use_its_jar_witness :
  let r := Sample.session_cookie true 200 "sid=new" in
  let am' := manager (perform Runtime.JSON_parse Runtime.base64_decode
                        Sample.logged_in
                        (LoginWithAccessToken Sample.valid_token) None
                        (Some r)) in
  delivered None (Some r) = true
  /\ exists req,
       issue Runtime.JSON_parse Runtime.base64_decode am' GetApps = Sent req
       /\ credentials req = CookiesFrom ["sid=new"].
Proof.
  intros r am'. split; [reflexivity|]. eexists. split; [reflexivity|].
  exact (requests_after_login_use_its_jar
           Runtime.JSON_parse Runtime.base64_decode Sample.logged_in
           Sample.valid_token _ r GetApps _ eq_refl eq_refl eq_refl eq_refl).
Defined.

Lemma requests_after_logout_witness :
  let r := Sample.response false 401 Sample.denied_text None in
  let am' := manager (perform Runtime.JSON_parse Runtime.base64_decode
                        Sample.logged_in Logout (Some Sample.unauthorized)
                        (Some r)) in
  delivered (Some Sample.unauthorized) (Some r) = true
  /\ exists req,
       issue Runtime.JSON_parse Runtime.base64_decode am' GetApps = Sent req
       /\ credentials req = NoCredentials.
Proof.
  intros r am'. split; [reflexivity|]. eexists. split; [reflexivity|].
  exact (proj1 (requests_after_logout
                  Runtime.JSON_parse Runtime.base64_decode Sample.logged_in
                  (Some Sample.unauthorized) (Some r) GetApps _
                  eq_refl eq_refl)
           (or_intror (ex_intro _ Sample.unauthorized
                         (conj eq_refl eq_refl)))).
Defined.

Lemma login_request_witness :
  requests (perform Runtime.JSON_parse Runtime.base64_decode Sample.logged_in
              (LoginWithAccessToken Sample.valid_token) None None)
  = [ {| method := POST;
         url := "http://localhost:3000/auth/login/accessToken";
         credentials := NoCredentials;
         payload := LoginForm (JObj [("providerName", JStr "GitHub");
                                     ("providerUniqueId", JStr "42")])
                              (JStr "k") |} ].
Proof.
  exact (login_request Runtime.JSON_parse Runtime.base64_decode Sample.logged_in
           Sample.valid_token
           ("{" +:+ Sample.quote +:+ "accessKeyName" +:+ Sample.quote +:+ ":"
            +:+ Sample.quote +:+ "k" +:+ Sample.quote +:+ ","
            +:+ Sample.quote +:+ "providerName" +:+ Sample.quote +:+ ":"
            +:+ Sample.quote +:+ "GitHub" +:+ Sample.quote +:+ ","
            +:+ Sample.quote +:+ "providerUniqueId" +:+ Sample.quote +:+ ":"
            +:+ Sample.quote +:+ "42" +:+ Sample.quote +:+ "}")
           None None eq_refl eq_refl eq_refl eq_refl).
Defined.

Lemma login_decode_exception_witness :
  Runtime.base64_decode "!!!" = Throws Runtime.InvalidCharacterError
  /\ requests (perform Runtime.JSON_parse Runtime.base64_decode Sample.node
                 (LoginWithAccessToken "!!!") None None) = []
  /\ calls (perform Runtime.JSON_parse Runtime.base64_decode Sample.node
              (LoginWithAccessToken "!!!") None None)
     = [Rejected Runtime.InvalidCharacterError].
Proof.
  split; [reflexivity|].
  destruct (login_decode_exception Runtime.JSON_parse Runtime.base64_decode
              Sample.node "!!!" Runtime.InvalidCharacterError None None eq_refl)
    as (Hr & Hc & _).
  split; [exact Hr | exact Hc].
Defined.

Lemma login_falsy_identity_witness :
  requests (perform Runtime.JSON_parse Runtime.base64_decode Sample.node
              (LoginWithAccessToken Sample.nameless_token) None None) = []
  /\ calls (perform Runtime.JSON_parse Runtime.base64_decode Sample.node
              (LoginWithAccessToken Sample.nameless_token) None None)
     = [Rejected (error_message "Invalid access key.")].
Proof.
  destruct (login_falsy_identity Runtime.JSON_parse Runtime.base64_decode
              Sample.node Sample.nameless_token
              ("{" +:+ Sample.quote +:+ "accessKeyName" +:+ Sample.quote +:+ ":"
               +:+ Sample.quote +:+ "k" +:+ Sample.quote +:+ ","
               +:+ Sample.quote +:+ "providerName" +:+ Sample.quote +:+ ":"
               +:+ Sample.quote +:+ Sample.quote +:+ ","
               +:+ Sample.quote +:+ "providerUniqueId" +:+ Sample.quote +:+ ":"
               +:+ Sample.quote +:+ "42" +:+ Sample.quote +:+ "}")
              None None eq_refl eq_refl)
    as (Hr & Hc & _).
  split; [exact Hr | exact Hc].
Defined.

Lemma early_settlement_witness :
  issue Runtime.JSON_parse Runtime.base64_decode Sample.node (RemoveApp JNull)
  = Settles (Rejected TypeError)
  /\ issue Runtime.JSON_parse Runtime.base64_decode Sample.node
       (DeleteDeploymentKey "1" "4" JUndefined)
     = Raises TypeError
  /\ exists appId deploymentId arg,
       (arg = JNull \/ arg = JUndefined)
       /\ DeleteDeploymentKey "1" "4" JUndefined
          = DeleteDeploymentKey appId deploymentId arg.
Proof.
  split; [reflexivity|]. split; [reflexivity|].
  exact (proj2 (proj2 (early_settlement
                         Runtime.JSON_parse Runtime.base64_decode Sample.node
                         (DeleteDeploymentKey "1" "4" JUndefined))
                  TypeError eq_refl)).
Defined.

Lemma record_or_id_witness :
  perform Runtime.JSON_parse Runtime.base64_decode Sample.node
    (RemoveApp (JObj [("id", JStr "1"); ("name", JStr "a")])) None None
  = perform Runtime.JSON_parse Runtime.base64_decode Sample.node
      (RemoveApp (JStr "1")) None None.
Proof.
  exact (proj1 (record_or_id Runtime.JSON_parse Runtime.base64_decode
                  Sample.node (JObj [("id", JStr "1"); ("name", JStr "a")])
                  "1" "1" "4" None None eq_refl)).
Defined.

Lemma created_resource_fields_witness :
  exists v req sent,
    calls (perform Runtime.JSON_parse Runtime.base64_decode Sample.node
             (AddAccessKey "uuid-1" (Some "laptop")) None
             (Some (Sample.response true 201 EmptyString
                      (Some "/accessKeys/k7")))) = [Resolved v]
    /\ get_prop v "id" = JStr (substr "/accessKeys/k7"
                                 (lastIndexOf "/" "/accessKeys/k7" + 1))
    /\ get_prop v "name" = JStr "uuid-1"
    /\ get_prop v "description" = optional (Some "laptop")
    /\ requests (perform Runtime.JSON_parse Runtime.base64_decode Sample.node
                   (AddAccessKey "uuid-1" (Some "laptop")) None
                   (Some (Sample.response true 201 EmptyString
                            (Some "/accessKeys/k7")))) = [req]
    /\ payload req = Json sent
    /\ truthy (get_prop sent "id") = false
    /\ v = set_prop sent "id" (get_prop v "id").
Proof.
  apply (created_resource_fields Runtime.JSON_parse Runtime.base64_decode
           Sample.node (AddAccessKey "uuid-1" (Some "laptop")) "uuid-1"
           (Some "laptop")
           (Sample.response true 201 EmptyString (Some "/accessKeys/k7"))
           "/accessKeys/k7" eq_refl eq_refl eq_refl).
  discriminate.
Defined.

Lemma browser_session_witness :
  let steps :=
    [ {| call_op := LoginWithAccessToken Sample.valid_token;
         call_err := None;
         call_res := Some (Sample.session_cookie true 200 "sid=new") |};
      {| call_op := IsAuthenticated;
         call_err := None;
         call_res := Some (Sample.session_cookie true 200 "sid=new") |};
      {| call_op := GetApps;
         call_err := None;
         call_res := Some (Sample.response true 200 Sample.apps_text None) |} ] in
  _authedAgent (fst (session Runtime.JSON_parse Runtime.base64_decode
                       Sample.browser steps)) = None
  /\ Forall (fun req => credentials req = WithCredentials)
       (snd (session Runtime.JSON_parse Runtime.base64_decode
               Sample.browser steps)).
Proof.
  intros steps.
  exact (browser_session Runtime.JSON_parse Runtime.base64_decode steps
           Sample.browser eq_refl eq_refl).
Defined.

Lemma request_shape_witness :
  exists req,
    issue Runtime.JSON_parse Runtime.base64_decode Sample.node
      (GetDeployment "1" "4") = Sent req
    /\ url req = "http://localhost:3000/apps/1/deployments/4"
    /\ payload req = NoPayload.
Proof.
  eexists. split; [reflexivity|]. split; [reflexivity|].
  exact (proj2 (request_shape Runtime.JSON_parse Runtime.base64_decode
                  Sample.node (GetDeployment "1" "4") _ eq_refl)
           (or_introl eq_refl)).
Defined.

Lemma pending_only_if_witness :
  calls (perform Runtime.JSON_parse Runtime.base64_decode Sample.node
           GetApps None None) = []
  /\ crashed (perform Runtime.JSON_parse Runtime.base64_decode Sample.node
                GetApps None None) = true.
Proof.
  split; [reflexivity|].
  destruct (pending_only_if Runtime.JSON_parse Runtime.base64_decode
              Sample.node GetApps None None eq_refl)
    as [H | [(a & d & n & c & r & H & _) | (a & d & k & _ & H & _)]];
    [exact H | discriminate H | discriminate H].
Defined.
